(** * Bwin bet monitor: a shallow embedding of [bwin_bet_monitor_final.py]

    The development follows the source file top to bottom: Python strings
    and the few [str] operations the monitor uses, [BetInfo], the proxy
    kill switch ([ProxyVerifier.verify_proxy]), the heuristic extractors of
    [EnhancedBetMonitor], the de-duplicating store
    ([check_for_new_bets]), [save_bet_history], and the two drivers of
    [BwinBetMonitor] ([initialize] and [run_monitoring_loop]).

    Calls into the collaborators (Selenium, requests, Telegram, the clock,
    the file system) are modelled by their outcome, supplied by the caller
    of each function: a value, or the fact that the call raised. *)

From Stdlib Require Import ZArith NArith List String Ascii Bool Lia DecimalString.
From Stdlib Require DecimalZ DecimalPos.
From stdpp Require Import base gmap list.
Import ListNotations.

#[local] Set Warnings "-clear-no-such-hyp".
Local Open Scope N_scope.

(** ** Python [str]: sequences of Unicode code points *)

Definition str := list N.

Fixpoint bytes_of (s : string) : list N :=
  match s with
  | EmptyString => []
  | String a r => N_of_ascii a :: bytes_of r
  end.

(** UTF-8 decoding of the literals written in this file: [need] is the
    number of continuation bytes still expected, [acc] the bits read. *)
Fixpoint utf8 (bs : list N) (need : nat) (acc : N) : str :=
  match bs with
  | [] => []
  | b :: r =>
      match need with
      | O => if b <? 128 then b :: utf8 r 0 0
             else if b <? 224 then utf8 r 1 (b - 192)
             else if b <? 240 then utf8 r 2 (b - 224)
             else utf8 r 3 (b - 240)
      | S O => (acc * 64 + (b - 128)) :: utf8 r 0 0
      | S n => utf8 r n (acc * 64 + (b - 128))
      end
  end.

Definition py (s : string) : str := utf8 (bytes_of s) 0 0.

Definition LF : N := 10.

(** [str.isspace] of one code point (the table of the Unicode database
    CPython 3.11 ships): what [str.strip()] removes. *)
Definition is_space (c : N) : bool :=
  ((9 <=? c) && (c <=? 13)) || ((28 <=? c) && (c <=? 32))
  || (c =? 133) || (c =? 160) || (c =? 5760)
  || ((8192 <=? c) && (c <=? 8202)) || (c =? 8232) || (c =? 8233)
  || (c =? 8239) || (c =? 8287) || (c =? 12288).

Fixpoint lstrip (s : str) : str :=
  match s with
  | [] => []
  | c :: r => if is_space c then lstrip r else s
  end.

Definition rstrip (s : str) : str := rev (lstrip (rev s)).

(** [s.strip()] *)
Definition strip (s : str) : str := rstrip (lstrip s).

(** [s.split('\n')]; the empty string splits to one empty line. *)
Fixpoint split_lines (s : str) : list str :=
  match s with
  | [] => [[]]
  | c :: r =>
      if c =? LF then [] :: split_lines r
      else match split_lines r with
           | [] => [[c]]
           | l :: ls => (c :: l) :: ls
           end
  end.

Fixpoint startswith (p s : str) : bool :=
  match p, s with
  | [], _ => true
  | _ :: _, [] => false
  | a :: p', b :: s' => (a =? b) && startswith p' s'
  end.

(** [p in s] for two strings. *)
Fixpoint str_in (p s : str) : bool :=
  startswith p s ||
  match s with
  | [] => false
  | _ :: r => str_in p r
  end.

(** [str.lower()], code point by code point.  ASCII capitals map to their
    small letters.  Outside ASCII only U+0130 (to [i] followed by U+0307)
    and U+212A KELVIN SIGN (to [k]) have an ASCII letter in their lower
    case; every other code point above 127 lowers to code points above 127
    and is left as it is here, which cannot change the outcome of a search
    for an ASCII keyword in the lowered line. *)
Definition lower_cp (c : N) : str :=
  if (65 <=? c) && (c <=? 90) then [c + 32]
  else if c =? 304 then [105; 775]
  else if c =? 8490 then [107]
  else [c].

Definition lower (s : str) : str := flat_map lower_cp s.

(** Code points of category Nd, what [\d] matches in a [str] pattern.
    Every block is ten wide except the mathematical digits
    U+1D7CE..U+1D7FF. *)
Definition digit_blocks : list N :=
  [48; 1632; 1776; 1984; 2406; 2534; 2662; 2790; 2918; 3046; 3174; 3302;
   3430; 3558; 3664; 3792; 3872; 4160; 4240; 6112; 6160; 6470; 6608; 6784;
   6800; 6992; 7088; 7232; 7248; 42528; 43216; 43264; 43472; 43504; 43600;
   44016; 65296; 66720; 68912; 69734; 69872; 69942; 70096; 70384; 70736;
   70864; 71248; 71360; 71472; 71904; 72016; 72784; 73040; 73120; 92768;
   92864; 93008; 123200; 123632; 125264; 130032].

Definition is_digit (c : N) : bool :=
  existsb (fun lo => (lo <=? c) && (c <=? lo + 9)) digit_blocks
  || ((120782 <=? c) && (c <=? 120831)).

Fixpoint skip_digits (s : str) : str :=
  match s with
  | [] => []
  | c :: r => if is_digit c then skip_digits r else s
  end.

(** The pattern [\d+\.\d{2}] anchored at the head of [s].  [\d+] is greedy;
    giving a digit back never helps, since the next item is a dot. *)
Definition odds_pattern_here (s : str) : bool :=
  match s with
  | [] => false
  | c :: r =>
      is_digit c &&
      match skip_digits r with
      | d :: a :: b :: _ => (d =? 46) && is_digit a && is_digit b
      | _ => false
      end
  end.

(** [re.search(r'\d+\.\d{2}', s)] as a truth value. *)
Fixpoint re_search_odds (s : str) : bool :=
  odds_pattern_here s ||
  match s with
  | [] => false
  | _ :: r => re_search_odds r
  end.

(** Decimal rendering of an integer inside an f-string. *)
Definition str_of_Z (z : Z) : str :=
  bytes_of (NilZero.string_of_int (Z.to_int z)).

Definition str_of_nat (n : nat) : str := str_of_Z (Z.of_nat n).

(** ** Outcomes of calls into the collaborators *)

(** A call either raises (an [Exception]) or returns a value. *)
Inductive outcome (A : Type) : Type :=
| Raised : outcome A
| Returned : A -> outcome A.
Arguments Raised {A}.
Arguments Returned {A} _.

(** The two readings of the clock the monitor takes: [int(time.time())]
    and the formatted [datetime.now()]. *)
Record Clock := { epoch : Z; stamp : str }.

(** ** [BetInfo] *)

Record BetInfo := {
  betslip_id : str;
  teams : str;
  market : str;
  stake : str;
  odds : str;
  possible_winnings : str;
  bet_time : str;
  status : str
}.

(** ** Page elements as Selenium hands them over

    [el_ref] is the identity of the element ([WebElement.__eq__] and
    [__hash__] go by it), [el_text] the result of reading [element.text],
    [el_id] that of [element.get_attribute('id')], and [el_cells] that of
    [row.find_elements(By.TAG_NAME, 'td')] together with the [.text] of each
    cell found. *)
Record WebElement := {
  el_ref : N;
  el_text : outcome str;
  el_id : outcome (option str);
  el_cells : outcome (list (outcome str))
}.

(** ** [EnhancedBetMonitor]: field extractors *)

Definition teams_line (line : str) : bool :=
  str_in (py " vs ") line || str_in (py " v ") line || str_in (py " - ") line.

Definition _extract_teams (lines : list str) : str :=
  match find teams_line lines with
  | Some line => line
  | None => match lines with
            | l :: _ => l
            | [] => py "Unknown Teams"
            end
  end.

Definition market_keywords : list str :=
  [py "1X2"; py "Over"; py "Under"; py "BTTS"; py "Handicap"; py "Draw"].

Definition market_line (line : str) : bool :=
  existsb (fun keyword => str_in keyword line) market_keywords.

Definition _extract_market (lines : list str) : str :=
  match find market_line lines with
  | Some line => line
  | None => py "Unknown Market"
  end.

Definition stake_line (line : str) : bool :=
  str_in (py "€") line || str_in (py "$") line || str_in (py "£") line.

Definition _extract_stake (lines : list str) : str :=
  match find stake_line lines with
  | Some line => line
  | None => py "Unknown Stake"
  end.

Definition _extract_odds (lines : list str) : str :=
  match find re_search_odds lines with
  | Some line => line
  | None => py "Unknown Odds"
  end.

Definition winnings_keywords : list str := [py "win"; py "return"; py "payout"].

Definition winnings_line (line : str) : bool :=
  existsb (fun keyword => str_in keyword (lower line)) winnings_keywords.

Definition _extract_winnings (lines : list str) : str :=
  match find winnings_line lines with
  | Some line => line
  | None => py "Unknown Winnings"
  end.

(** [x or default] on the value of the [id] attribute: [None] and the empty
    string are both false. *)
Definition or_default (x : option str) (default : str) : str :=
  match x with
  | Some (c :: r) => c :: r
  | _ => default
  end.

(** [_extract_bet_info(element, index)]: every exception is caught and
    turned into [None]. *)
Definition _extract_bet_info (clk : Clock) (element : WebElement) (index : nat)
  : option BetInfo :=
  match el_text element with
  | Raised => None
  | Returned raw =>
      let text := strip raw in
      if (length text <? 10)%nat then None
      else
        match el_id element with
        | Raised => None
        | Returned attr =>
            let bet_id :=
              or_default attr
                (py "bet_" ++ str_of_Z (epoch clk) ++ py "_" ++ str_of_nat index) in
            let lines := split_lines text in
            Some {| betslip_id := bet_id;
                    teams := _extract_teams lines;
                    market := _extract_market lines;
                    stake := _extract_stake lines;
                    odds := _extract_odds lines;
                    possible_winnings := _extract_winnings lines;
                    bet_time := stamp clk;
                    status := py "Active" |}
        end
  end.

(** [[cell.text.strip() for cell in cells]]: the first cell whose text
    cannot be read aborts the comprehension. *)
Fixpoint cell_texts (cells : list (outcome str)) : outcome (list str) :=
  match cells with
  | [] => Returned []
  | Raised :: _ => Raised
  | Returned t :: r =>
      match cell_texts r with
      | Raised => Raised
      | Returned ts => Returned (strip t :: ts)
      end
  end.

(** [_extract_bet_from_row(row, index)] *)
Definition _extract_bet_from_row (clk : Clock) (row : WebElement) (index : nat)
  : option BetInfo :=
  match el_cells row with
  | Raised => None
  | Returned cells =>
      if (length cells <? 3)%nat then None
      else
        match cell_texts cells with
        | Raised => None
        | Returned texts =>
            Some {| betslip_id :=
                      py "row_bet_" ++ str_of_Z (epoch clk) ++ py "_" ++ str_of_nat index;
                    teams := nth 0 texts (py "Unknown");
                    market := nth 1 texts (py "Unknown");
                    stake := nth 2 texts (py "Unknown");
                    odds := nth 3 texts (py "Unknown");
                    possible_winnings := nth 4 texts (py "Unknown");
                    bet_time := stamp clk;
                    status := py "Active" |}
        end
  end.

(** ** [EnhancedBetMonitor.scan_for_bets] *)

Definition DQ : str := [34].

(** The CSS selector [[attr*="v"]]. *)
Definition attr_contains (attr v : str) : str :=
  py "[" ++ attr ++ py "*=" ++ DQ ++ v ++ DQ ++ py "]".

Definition bet_selectors : list str :=
  [attr_contains (py "class") (py "betslip");
   attr_contains (py "class") (py "bet-slip");
   attr_contains (py "class") (py "ticket");
   attr_contains (py "data-testid") (py "bet");
   py ".card";
   attr_contains (py "class") (py "coupon")].

Definition row_selector : str :=
  py "tr" ++ attr_contains (py "class") (py "bet") ++ py ", tbody tr".

(** [for i, element in enumerate(...)]: keep what the extractor returns. *)
Fixpoint extract_each (f : nat -> WebElement -> option BetInfo) (i : nat)
    (els : list WebElement) : list BetInfo :=
  match els with
  | [] => []
  | e :: r =>
      match f i e with
      | Some bet => bet :: extract_each f (S i) r
      | None => extract_each f (S i) r
      end
  end.

Section Scan.
(** [driver.find_elements(By.CSS_SELECTOR, selector)] on the current page. *)
Variable find_elements : str -> outcome (list WebElement).
(** [list(set(l))]: the distinct elements of [l] in the iteration order
    of the set, which Python leaves to the hashes. *)
Variable set_order : list WebElement -> list WebElement.
(** The clock when the container, respectively the row, of a given index
    is processed. *)
Variable clock_cards : nat -> Clock.
Variable clock_rows : nat -> Clock.

Fixpoint gather (selectors : list str) : outcome (list WebElement) :=
  match selectors with
  | [] => Returned []
  | selector :: r =>
      match find_elements selector with
      | Raised => Raised
      | Returned elements =>
          match gather r with
          | Raised => Raised
          | Returned rest => Returned (elements ++ rest)
          end
      end
  end.

(** Strategy 1: containers. *)
Definition scan_cards (bet_elements : list WebElement) : list BetInfo :=
  extract_each (fun i e => _extract_bet_info (clock_cards i) e i) 0
               (set_order bet_elements).

(** Strategy 2: table rows. *)
Definition scan_rows (table_rows : list WebElement) : list BetInfo :=
  extract_each (fun i row => _extract_bet_from_row (clock_rows i) row i) 0
               table_rows.

(** The outer [try] turns an exception of [find_elements] into the empty
    list. *)
Definition scan_for_bets : list BetInfo :=
  match gather bet_selectors with
  | Raised => []
  | Returned bet_elements =>
      match scan_cards bet_elements with
      | [] =>
          match find_elements row_selector with
          | Raised => []
          | Returned table_rows => scan_rows table_rows
          end
      | bets => bets
      end
  end.
End Scan.

(** ** The de-duplicating store of [EnhancedBetMonitor] *)

Record BetStore := {
  known_bets : gset str;
  bet_history : list BetInfo
}.

(** [EnhancedBetMonitor.__init__] *)
Definition new_store : BetStore := {| known_bets := ∅; bet_history := [] |}.

(** One turn of the loop of [check_for_new_bets]: the pair is [new_bets]
    and the store. *)
Definition consider (acc : list BetInfo * BetStore) (bet : BetInfo)
  : list BetInfo * BetStore :=
  let '(new_bets, st) := acc in
  if decide (betslip_id bet ∈ known_bets st) then acc
  else (new_bets ++ [bet],
        {| known_bets := {[betslip_id bet]} ∪ known_bets st;
           bet_history := bet_history st ++ [bet] |}).

(** [check_for_new_bets], given what [scan_for_bets] returned. *)
Definition check_for_new_bets (current_bets : list BetInfo) (st : BetStore)
  : list BetInfo * BetStore :=
  fold_left consider current_bets ([], st).

(** The stores a run can be in: any number of checks from [new_store]. *)
Inductive reachable : BetStore -> Prop :=
| reach_init : reachable new_store
| reach_check st current_bets :
    reachable st -> reachable (snd (check_for_new_bets current_bets st)).

(** ** [save_bet_history]: the JSON document and the file writes *)

#[local] Set Warnings "-register-all".
Inductive json : Type :=
| JStr (s : str)
| JInt (z : Z)
| JList (items : list json)
| JDict (members : list (str * json)).

(** [BetInfo.to_dict] *)
Definition to_dict (bet : BetInfo) : json :=
  JDict [(py "betslip_id", JStr (betslip_id bet));
         (py "teams", JStr (teams bet));
         (py "market", JStr (market bet));
         (py "stake", JStr (stake bet));
         (py "odds", JStr (odds bet));
         (py "possible_winnings", JStr (possible_winnings bet));
         (py "bet_time", JStr (bet_time bet));
         (py "status", JStr (status bet))].

(** The dictionary [history_data]; [now_iso] is [datetime.now().isoformat()]. *)
Definition history_data (now_iso : str) (st : BetStore) : json :=
  JDict [(py "last_updated", JStr now_iso);
         (py "total_bets", JInt (Z.of_nat (length (bet_history st))));
         (py "bets", JList (map to_dict (bet_history st)))].

Definition hex_digit (n : N) : N := if n <? 10 then 48 + n else 87 + n.

(** [\uXXXX] with four lower-case hexadecimal digits. *)
Definition u_escape (n : N) : str :=
  [92; 117; hex_digit (n / 4096 mod 16); hex_digit (n / 256 mod 16);
   hex_digit (n / 16 mod 16); hex_digit (n mod 16)].

(** One code point under [json]'s [ensure_ascii] string encoder. *)
Definition escape_cp (c : N) : str :=
  if c =? 92 then [92; 92]
  else if c =? 34 then [92; 34]
  else if (32 <=? c) && (c <=? 126) then [c]
  else if c =? 8 then [92; 98]
  else if c =? 12 then [92; 102]
  else if c =? 10 then [92; 110]
  else if c =? 13 then [92; 114]
  else if c =? 9 then [92; 116]
  else if c <? 65536 then u_escape c
  else u_escape (55296 + ((c - 65536) / 1024) mod 1024)
       ++ u_escape (56320 + (c - 65536) mod 1024).

Definition encode_str (s : str) : str := DQ ++ flat_map escape_cp s ++ DQ.

Definition newline_indent (level : nat) : str := LF :: repeat 32 (2 * level).

(** [json.dumps(j, indent=2)], at nesting depth [level]. *)
Fixpoint encode (level : nat) (j : json) : str :=
  match j with
  | JStr s => encode_str s
  | JInt z => str_of_Z z
  | JList [] => py "[]"
  | JList (x :: r) =>
      py "[" ++ newline_indent (S level) ++ encode (S level) x
      ++ (fix more (l : list json) : str :=
            match l with
            | [] => []
            | y :: l' => py "," ++ newline_indent (S level) ++ encode (S level) y ++ more l'
            end) r
      ++ newline_indent level ++ py "]"
  | JDict [] => py "{}"
  | JDict ((k, v) :: r) =>
      py "{" ++ newline_indent (S level) ++ encode_str k ++ py ": " ++ encode (S level) v
      ++ (fix more (l : list (str * json)) : str :=
            match l with
            | [] => []
            | (k', v') :: l' =>
                py "," ++ newline_indent (S level) ++ encode_str k' ++ py ": "
                ++ encode (S level) v' ++ more l'
            end) r
      ++ newline_indent level ++ py "}"
  end.

Definition dumps (j : json) : str := encode 0 j.

(** Files.  A file system maps a path to what the file holds on disk.  A
    text file open for writing keeps what is written to it in a buffer and
    passes the buffer on to the disk front to back, in portions of its own
    choosing; closing the file passes on the rest. *)
Record OpenFile := { on_disk : str; buffered : str }.

(** [f.write(chunk)], during which the file object passes [passed]
    characters on to the disk. *)
Definition write (passed : nat) (f : OpenFile) (chunk : str) : OpenFile :=
  {| on_disk := on_disk f ++ take passed (buffered f ++ chunk);
     buffered := drop passed (buffered f ++ chunk) |}.

(** What the library and the platform do during one [save_bet_history]:
    whether [open(filename, 'w')] raises, the chunks in which [json.dump]
    hands a document to [f.write], how many characters the file object
    passes on during the write of index [i], whether that write raises,
    and how many characters the flush of the closing [with] block gets to
    the disk (it raises when characters stay behind). *)
Record Storage := {
  open_raises : bool;
  pieces : str -> list str;
  passed_on : nat -> nat;
  write_raises : nat -> bool;
  closing : nat
}.

(** [json.dump]: [for chunk in iterable: fp.write(chunk)], from the write
    of index [i] on.  The flag tells whether it ran to its end. *)
Fixpoint dump (w : Storage) (i : nat) (chunks : list str) (f : OpenFile)
  : OpenFile * bool :=
  match chunks with
  | [] => (f, true)
  | chunk :: rest =>
      let f' := write (passed_on w i) f chunk in
      if write_raises w i then (f', false) else dump w (S i) rest f'
  end.

(** Leaving the [with] block closes the file, also on an exception. *)
Definition close (w : Storage) (f : OpenFile) : str :=
  on_disk f ++ take (closing w) (buffered f).

(** [save_bet_history(filename)], as a change of the file system.  It
    opens [filename] itself with mode ['w'], which cuts the file to length
    zero, and dumps the document into it.  Whatever raises is caught by
    the [except Exception] clause and logged: the function returns in
    every case. *)
Definition save_bet_history (w : Storage) (filename now_iso : str)
    (st : BetStore) (fs : gmap str str) : gmap str str :=
  if open_raises w then fs
  else
    let '(f, _) := dump w 0 (pieces w (dumps (history_data now_iso st)))
                        {| on_disk := []; buffered := [] |} in
    <[filename := close w f]> fs.


(** ** [ProxyConfig] and [ProxyVerifier.verify_proxy] *)

Record ProxyConfig := {
  host : str;
  port : Z;
  username : str;
  password : str;
  expected_ip : str;
  timeout : Z;
  verify_ssl : bool
}.

(** A Python value as far as [==] against a [str] can tell. *)
Inductive py_value :=
| VStr (s : str)
| VOther.

Definition eq_str (v : py_value) (s : str) : bool :=
  match v with
  | VStr t => bool_decide (t = s)
  | VOther => false
  end.

(** What [response.json()] gives: a decoding error, a JSON object (with its
    ['ip'] member, if it has one), or a JSON document that is no object
    (a list, a string, a number, [null]), on which [.get] raises
    [AttributeError]. *)
Inductive json_body :=
| NotJson
| JsonObject (ip : option py_value)
| JsonNotObject.

Record Response := {
  status_code : Z;
  resp_text : str;
  resp_json : json_body
}.

(** The result of [requests.get(service, ...)]: a [RequestException]
    (time-out, connection or proxy error) or a response. *)
Inductive probe :=
| RequestFailed
| Responded (r : Response).

Definition ip_services : list str :=
  [py "https://api.ipify.org?format=json";
   py "https://ifconfig.me/ip";
   py "https://api.myip.com"].

Section ProxyVerifier.
Variable proxy_config : ProxyConfig.
(** The network, through the proxy. *)
Variable get : str -> probe.
(** Whether the decoding error of [response.json()] is a
    [RequestException] (it is from requests 2.27 on). *)
Variable decode_error_is_request_exception : bool.

(** The [for] loop over the services.  [Raised]: an exception other than
    [RequestException] leaves [verify_proxy]. *)
Fixpoint verify_services (services : list str) : outcome bool :=
  match services with
  | [] => Returned false
  | service :: rest =>
      match get service with
      | RequestFailed => verify_services rest
      | Responded response =>
          if (status_code response =? 200)%Z then
            if str_in (py "json") service then
              match resp_json response with
              | NotJson =>
                  if decode_error_is_request_exception
                  then verify_services rest else Raised
              | JsonNotObject => Raised
              | JsonObject ip =>
                  let actual_ip := default (VStr []) ip in
                  if eq_str actual_ip (expected_ip proxy_config)
                  then Returned true else verify_services rest
              end
            else
              let actual_ip := strip (resp_text response) in
              if bool_decide (actual_ip = expected_ip proxy_config)
              then Returned true else verify_services rest
          else verify_services rest
      end
  end.

Definition verify_proxy : outcome bool := verify_services ip_services.

(** A service vouches for the proxy: status 200 and the reported address
    is the expected one. *)
Definition confirms (service : str) : bool :=
  match get service with
  | RequestFailed => false
  | Responded response =>
      (status_code response =? 200)%Z &&
      if str_in (py "json") service then
        match resp_json response with
        | JsonObject ip => eq_str (default (VStr []) ip) (expected_ip proxy_config)
        | _ => false
        end
      else bool_decide (strip (resp_text response) = expected_ip proxy_config)
  end.

(** A service makes [verify_proxy] raise. *)
Definition breaks (service : str) : bool :=
  match get service with
  | RequestFailed => false
  | Responded response =>
      (status_code response =? 200)%Z && str_in (py "json") service &&
      match resp_json response with
      | NotJson => negb decode_error_is_request_exception
      | JsonNotObject => true
      | JsonObject _ => false
      end
  end.
End ProxyVerifier.

(** ** Telegram messages and the side effects of [BwinBetMonitor] *)

Inductive status_update :=
| StartupFailedProxy
| StartingUp
| StartupFailedLogin
| StartupFailedHistory
| InitializedOk (ip : str)
| StartupFailedException
| MonitorActive (check_count : Z) (tracked : nat)
| StoppedTooManyErrors
| StoppedByUser
| MonitorCrashed.

Inductive action :=
| SendStatus (m : status_update)
| SendBet (bet : BetInfo)
| LaunchChrome
| LoginAttempt (attempt : nat)
| NavigateHistory
| Refresh
| Sleep (seconds : Z)
| SaveHistory (st : BetStore)
| BrowserCleanup.

Definition is_status (a : action) : bool :=
  match a with SendStatus _ => true | _ => false end.

Definition is_launch (a : action) : bool :=
  match a with LaunchChrome => true | _ => false end.

Definition is_login (a : action) : bool :=
  match a with LoginAttempt _ => true | _ => false end.

(** The attributes of [BwinBetMonitor] that [initialize] and the loop set:
    [None] and [false] stand for Python's [None]. *)
Record Monitor := {
  browser_manager : bool;
  driver : bool;
  bet_monitor : option BetStore;
  telegram_notifier : bool;
  monitoring_active : bool
}.

(** [BwinBetMonitor.__init__] *)
Definition new_monitor : Monitor :=
  {| browser_manager := false; driver := false; bet_monitor := None;
     telegram_notifier := false; monitoring_active := false |}.

(** [BwinBetMonitor.cleanup] *)
Definition cleanup (m : Monitor) : list action :=
  match bet_monitor m with Some st => [SaveHistory st] | None => [] end
  ++ (if browser_manager m then [BrowserCleanup] else []).

(** [EnhancedBwinLogin.login]: attempts [attempt], [attempt + 1], ... while
    [remaining] are left, five seconds apart. *)
Fixpoint login_from (attempt_ok : nat -> bool) (attempt remaining : nat)
  : bool * list action :=
  match remaining with
  | O => (false, [])
  | S k =>
      if attempt_ok attempt then (true, [LoginAttempt attempt])
      else
        let '(ok, acts) := login_from attempt_ok (S attempt) k in
        (ok, LoginAttempt attempt
             :: (match k with O => [] | S _ => [Sleep 5] end) ++ acts)
  end.

Definition login (attempt_ok : nat -> bool) : bool * list action :=
  login_from attempt_ok 1 3.

(** What the collaborators do during [initialize]. *)
Record Startup := {
  network : str -> probe;                     (* requests.get, through the proxy *)
  decode_error_is_request_exception : bool;   (* see [verify_services] *)
  notifier_built : bool;           (* EnhancedTelegramNotifier(...) returns *)
  chrome_launched : bool;          (* launch_chrome() returns *)
  attempt_ok : nat -> bool;        (* _attempt_login, by attempt number *)
  history_reached : bool           (* navigate_to_bet_history() *)
}.

(** The [except Exception] clause of [initialize]. *)
Definition startup_exception (m : Monitor) : bool * Monitor * list action :=
  (false, m,
   (if telegram_notifier m then [SendStatus StartupFailedException] else [])
   ++ cleanup m).

(** [BwinBetMonitor.initialize]: the value returned, the monitor
    afterwards, and the side effects in order. *)
Definition initialize (proxy_config : ProxyConfig) (w : Startup)
  : bool * Monitor * list action :=
  let m := new_monitor in
  match verify_proxy proxy_config (network w)
                     (decode_error_is_request_exception w) with
  | Raised => startup_exception m
  | Returned false =>
      if notifier_built w then
        (false,
         {| browser_manager := false; driver := false; bet_monitor := None;
            telegram_notifier := true; monitoring_active := false |},
         [SendStatus StartupFailedProxy])
      else startup_exception m
  | Returned true =>
      let m1 := {| browser_manager := true; driver := false; bet_monitor := None;
                   telegram_notifier := false; monitoring_active := false |} in
      if negb (chrome_launched w) then
        (* launch_chrome cleans up itself before it re-raises *)
        let '(r, m', acts) := startup_exception m1 in
        (r, m', LaunchChrome :: BrowserCleanup :: acts)
      else
        let m2 := {| browser_manager := true; driver := true; bet_monitor := None;
                     telegram_notifier := false; monitoring_active := false |} in
        if negb (notifier_built w) then
          let '(r, m', acts) := startup_exception m2 in (r, m', LaunchChrome :: acts)
        else
          let m3 := {| browser_manager := true; driver := true; bet_monitor := None;
                       telegram_notifier := true; monitoring_active := false |} in
          let '(logged_in, attempts) := login (attempt_ok w) in
          if negb logged_in then
            (false, m3,
             [LaunchChrome; SendStatus StartingUp] ++ attempts
             ++ [SendStatus StartupFailedLogin] ++ cleanup m3)
          else
            let m4 := {| browser_manager := true; driver := true;
                         bet_monitor := Some new_store;
                         telegram_notifier := true; monitoring_active := false |} in
            if negb (history_reached w) then
              (false, m4,
               [LaunchChrome; SendStatus StartingUp] ++ attempts
               ++ [NavigateHistory; SendStatus StartupFailedHistory] ++ cleanup m4)
            else
              (true,
               {| browser_manager := true; driver := true;
                  bet_monitor := Some new_store;
                  telegram_notifier := true; monitoring_active := true |},
               [LaunchChrome; SendStatus StartingUp] ++ attempts
               ++ [NavigateHistory;
                   SendStatus (InitializedOk (expected_ip proxy_config))])
  end.

(** ** [BwinBetMonitor.run_monitoring_loop] *)

(** What the collaborators do during one iteration: whether
    [driver.refresh()] returns (asked only every tenth check), what
    [scan_for_bets] hands to [check_for_new_bets] or that the check raised
    (which the code of [scan_for_bets], catching every exception of its
    queries, does not let happen: see [scan_returns]), whether the platform
    refuses the sleep that ends the iteration although its length is in the
    range of [time.sleep] (an [OSError] raised at once), and whether a
    [KeyboardInterrupt] arrives during that sleep. *)
Record Iteration := {
  refresh_ok : bool;
  scanned : outcome (list BetInfo);
  sleep_refused : bool;
  interrupted : bool
}.

(** [time.sleep(seconds)] raises at once, before any waiting, for a
    negative length ([ValueError]) and for a length whose nanoseconds do
    not fit in 64 bits ([OverflowError]). *)
Definition sleep_limit : Z := Eval cbv in ((2 ^ 63 - 1) / 10 ^ 9)%Z.

Definition sleep_raises (seconds : Z) : bool :=
  ((seconds <? 0) || (sleep_limit <? seconds))%Z.

(** The local variables of the loop, with the store of [self.bet_monitor]. *)
Record Loop := {
  store : option BetStore;
  consecutive_errors : Z;
  check_count : Z
}.

Inductive ending :=
| NotStarted          (* monitoring was not active *)
| EndedOnErrors     (* [break] after too many errors *)
| EndedByUser      (* [KeyboardInterrupt] *)
| EndedByCrash             (* the outer [except Exception] *)
| StillRunning.            (* the iterations supplied are used up *)

(** The inner [try] block of one iteration, [check_count] already
    incremented.  The flag tells whether the block ran to its end
    ([true]) or raised ([false]); what was done before the exception
    stays done. *)
Definition try_body (check_interval : Z) (l : Loop) (it : Iteration)
  : Loop * list action * bool :=
  let refresh_due := (check_count l mod 10 =? 0)%Z in
  if refresh_due && negb (refresh_ok it) then (l, [Refresh], false)
  else
    let refreshed := if refresh_due then [Refresh; Sleep 5] else [] in
    match store l, scanned it with
    | None, _ | _, Raised => (l, refreshed, false)
    | Some st, Returned current_bets =>
        let '(new_bets, st') := check_for_new_bets current_bets st in
        let told :=
          match new_bets with
          | [] => []
          | _ :: _ => map SendBet new_bets ++ [SaveHistory st']
          end in
        let l' := {| store := Some st'; consecutive_errors := 0;
                     check_count := check_count l |} in
        if (check_interval =? 0)%Z then (l', refreshed ++ told, false)
        else
          let per_hour := (3600 / check_interval)%Z in
          if (per_hour =? 0)%Z then (l', refreshed ++ told, false)
          else if (check_count l mod per_hour =? 0)%Z then
            (l', refreshed ++ told
                 ++ [SendStatus (MonitorActive (check_count l)
                                               (size (known_bets st')))], true)
          else (l', refreshed ++ told, true)
    end.

(** One turn of the [while] loop.  [None]: the loop goes on. *)
Definition iteration (check_interval max_errors : Z) (l : Loop) (it : Iteration)
  : Loop * list action * option ending :=
  let l0 := {| store := store l; consecutive_errors := consecutive_errors l;
               check_count := (check_count l + 1)%Z |} in
  let '(l1, acts, completed) := try_body check_interval l0 it in
  let l2 := if completed then l1
            else {| store := store l1;
                    consecutive_errors := (consecutive_errors l1 + 1)%Z;
                    check_count := check_count l1 |} in
  if negb completed && (consecutive_errors l2 >=? max_errors)%Z then
    (l2, acts ++ [SendStatus StoppedTooManyErrors], Some EndedOnErrors)
  else
    let recovery := match store l2 with
                    | Some _ => [NavigateHistory]
                    | None => []    (* the [AttributeError] is passed over *)
                    end in
    let handled := if completed then acts else acts ++ recovery in
    if sleep_raises check_interval || sleep_refused it then
      (l2, handled ++ [SendStatus MonitorCrashed], Some EndedByCrash)
    else if interrupted it then
      (l2, handled ++ [Sleep check_interval; SendStatus StoppedByUser],
       Some EndedByUser)
    else (l2, handled ++ [Sleep check_interval], None).

Fixpoint iterate (check_interval max_errors : Z) (l : Loop)
    (world : list Iteration) : Loop * list action * ending :=
  match world with
  | [] => (l, [], StillRunning)
  | it :: rest =>
      let '(l', acts, e) := iteration check_interval max_errors l it in
      match e with
      | Some e => (l', acts, e)
      | None =>
          let '(l'', acts', e') := iterate check_interval max_errors l' rest in
          (l'', acts ++ acts', e')
      end
  end.

(** [run_monitoring_loop(check_interval, max_errors)] against the
    iterations of [world]; the [finally] clause runs whenever the loop is
    left. *)
Definition run_monitoring_loop (check_interval max_errors : Z) (m : Monitor)
    (world : list Iteration) : Monitor * list action * ending :=
  if negb (monitoring_active m) then (m, [], NotStarted)
  else
    let '(l, acts, e) :=
      iterate check_interval max_errors
              {| store := bet_monitor m; consecutive_errors := 0; check_count := 0 |}
              world in
    match e with
    | StillRunning =>
        ({| browser_manager := browser_manager m; driver := driver m;
            bet_monitor := store l; telegram_notifier := telegram_notifier m;
            monitoring_active := true |}, acts, StillRunning)
    | _ =>
        let m' := {| browser_manager := browser_manager m; driver := driver m;
                     bet_monitor := store l;
                     telegram_notifier := telegram_notifier m;
                     monitoring_active := false |} in
        (m', acts ++ cleanup m', e)
    end.

(** ** The decimal-odds pattern in the words of the specification

    A line qualifies when it contains one or more digits, a dot, and two
    digits.  [re_search_odds] above is the search as the code runs it; the
    two are compared below. *)
Definition spec_odds_line (line : str) : Prop :=
  exists pre ds a b post,
    line = pre ++ ds ++ [46; a; b] ++ post /\ ds <> [] /\
    forallb is_digit ds = true /\ is_digit a = true /\ is_digit b = true.

(** [line] is the first element of [lines] on which [p] holds. *)
Definition first_line (p : str -> bool) (lines : list str) (line : str) : Prop :=
  exists before after,
    lines = before ++ line :: after /\ p line = true /\
    Forall (fun l => p l = false) before.

(** The identifiers of a list of records. *)
Definition ids (bets : list BetInfo) : list str := map betslip_id bets.

(** A field is successfully matched or the sentinel: it is the first line
    that qualifies for the matcher [p], or no line qualifies and it is
    [sentinel]. *)
Definition matched_or_sentinel (p : str -> bool) (sentinel : str)
    (lines : list str) (field : str) : Prop :=
  first_line p lines field
  \/ (Forall (fun l => p l = false) lines /\ field = sentinel).

(** ** Concrete inputs used below *)

Definition clock0 : Clock := {| epoch := 1700000000; stamp := py "2023-11-14 22:13:20" |}.

(** The text block of the extraction scenario. *)
Definition scenario_text : str :=
  py "Arsenal vs Chelsea" ++ [LF] ++ py "1X2 Home" ++ [LF]
  ++ py "€25.00 stake" ++ [LF] ++ py "2.40" ++ [LF] ++ py "Possible win €60.00".

Definition scenario_element : WebElement :=
  {| el_ref := 1; el_text := Returned scenario_text;
     el_id := Returned (Some (py "slip-1")); el_cells := Returned [] |}.


(** Two records with distinct identifiers and one repeating the first. *)
Definition bet_a : BetInfo :=
  {| betslip_id := py "slip-1"; teams := py "Arsenal vs Chelsea";
     market := py "1X2 Home"; stake := py "€25.00 stake"; odds := py "2.40";
     possible_winnings := py "Possible win €60.00";
     bet_time := stamp clock0; status := py "Active" |}.

Definition bet_b : BetInfo :=
  {| betslip_id := py "slip-2"; teams := py "Leeds - Hull";
     market := py "Over 2.5"; stake := py "£10.00"; odds := py "1.85";
     possible_winnings := py "Return £18.50";
     bet_time := stamp clock0; status := py "Active" |}.

Definition is_send_bet (a : action) : bool :=
  match a with SendBet _ => true | _ => false end.

(** Several checks in a row, one per scan. *)
Definition checks (scans : list (list BetInfo)) (st : BetStore) : BetStore :=
  fold_left (fun st current => snd (check_for_new_bets current st)) scans st.

(** A container whose first line names the teams without a separator. *)
Definition plain_element : WebElement :=
  {| el_ref := 3;
     el_text := Returned (py "Arsenal Chelsea" ++ [LF] ++ py "1X2 Home" ++ [LF]
                          ++ py "€25.00 stake");
     el_id := Returned (Some (py "slip-3")); el_cells := Returned [] |}.

(** A table row with two cells only. *)
Definition short_row : WebElement :=
  {| el_ref := 7; el_text := Returned (py "Arsenal vs Chelsea 1X2");
     el_id := Returned None;
     el_cells := Returned [Returned (py "Arsenal vs Chelsea"); Returned (py "1X2")] |}.

(** A table row of seven cells; the text of the last cannot be read. *)
Definition torn_row : WebElement :=
  {| el_ref := 9; el_text := Returned (py "Arsenal vs Chelsea 1X2 €25.00 2.40");
     el_id := Returned None;
     el_cells := Returned [Returned (py "Arsenal vs Chelsea"); Returned (py "1X2");
                           Returned (py "€25.00"); Returned (py "2.40");
                           Returned (py "€60.00"); Returned (py "Open"); Raised] |}.

Definition history_file : str := py "bet_history.json".

Definition store_a : BetStore := snd (check_for_new_bets [bet_a] new_store).
Definition store_ab : BetStore := snd (check_for_new_bets [bet_a; bet_b] new_store).

(** The good file of an earlier save. *)
Definition good_document : str :=
  dumps (history_data (py "2023-11-14T22:13:20") store_a).

Definition disk0 : gmap str str := {[ history_file := good_document ]}.

(** Nothing raises; the document is written one character at a time and
    the buffer keeps everything until the file is closed. *)
Definition storage_buffered : Storage :=
  {| open_raises := false; pieces := map (fun c => [c]);
     passed_on := fun _ => 0%nat; write_raises := fun _ => false;
     closing := 4096 |}.


(** The file cannot be opened. *)
Definition storage_locked : Storage :=
  {| open_raises := true; pieces := map (fun c => [c]);
     passed_on := fun _ => 0%nat; write_raises := fun _ => false;
     closing := 4096 |}.

(** The disk is full once the write of index 40 is reached. *)
Definition storage_full : Storage :=
  {| open_raises := false; pieces := map (fun c => [c]);
     passed_on := fun i => if (i <? 40)%nat then 1%nat else 0%nat;
     write_raises := fun i => (40 <=? i)%nat;
     closing := 0 |}.

Definition config0 : ProxyConfig :=
  {| host := py "proxy.example"; port := 8080; username := py "user";
     password := py "secret"; expected_ip := py "203.0.113.9";
     timeout := 10; verify_ssl := false |}.

Definition text_response (body : str) : probe :=
  Responded {| status_code := 200; resp_text := body; resp_json := NotJson |}.

(** Every service reports 203.0.113.8: one digit off. *)
Definition network_mismatch (service : str) : probe :=
  Responded {| status_code := 200; resp_text := py "203.0.113.8";
               resp_json := JsonObject (Some (VStr (py "203.0.113.8"))) |}.

(** The first service answers 200 with the JSON document [[]]; the other
    two report the expected address. *)
Definition network_list_body (service : str) : probe :=
  if bool_decide (service = py "https://api.ipify.org?format=json")
  then Responded {| status_code := 200; resp_text := py "[]";
                    resp_json := JsonNotObject |}
  else text_response (py "203.0.113.9" ++ [LF]).

Definition startup_mismatch : Startup :=
  {| network := network_mismatch; decode_error_is_request_exception := true;
     notifier_built := true; chrome_launched := true;
     attempt_ok := fun _ => true; history_reached := true |}.

(** The loop state after [check_count += 1]. *)
Definition counted (l : Loop) : Loop :=
  {| store := store l; consecutive_errors := consecutive_errors l;
     check_count := (check_count l + 1)%Z |}.

(** The inner [try] block of the iteration that starts in [l] raises. *)
Definition raises (check_interval : Z) (l : Loop) (it : Iteration) : bool :=
  negb (snd (try_body check_interval (counted l) it)).

(** The block raises before it gets to [consecutive_errors = 0]: in
    [driver.refresh()] or in the new-bet check. *)
Definition raises_early (l : Loop) (it : Iteration) : bool :=
  ((check_count (counted l) mod 10 =? 0)%Z && negb (refresh_ok it))
  || match store l, scanned it with
     | Some _, Returned _ => false
     | _, _ => true
     end.

(** [check_count % (3600 // check_interval)] raises [ZeroDivisionError]. *)
Definition division_raises (check_interval : Z) : bool :=
  (check_interval =? 0)%Z || (3600 / check_interval =? 0)%Z.

(** Each iteration of [world], run one after the other from [l], raises. *)
Fixpoint all_raise (check_interval max_errors : Z) (l : Loop)
    (world : list Iteration) : bool :=
  match world with
  | [] => true
  | it :: rest =>
      raises check_interval l it
      && all_raise check_interval max_errors
           (fst (fst (iteration check_interval max_errors l it))) rest
  end.

Definition quiet_scan : Iteration :=
  {| refresh_ok := true; scanned := Returned [];
     sleep_refused := false; interrupted := false |}.

(** An iteration in which [driver.refresh()] raises, if it is asked. *)
Definition refresh_fails : Iteration :=
  {| refresh_ok := false; scanned := Returned [];
     sleep_refused := false; interrupted := false |}.

Definition active_monitor : Monitor :=
  {| browser_manager := true; driver := true; bet_monitor := Some new_store;
     telegram_notifier := true; monitoring_active := true |}.

Definition loop_start (m : Monitor) : Loop :=
  {| store := bet_monitor m; consecutive_errors := 0; check_count := 0 |}.

(** The terminal notification of the error budget. *)
Definition is_terminal (a : action) : bool :=
  match a with SendStatus StoppedTooManyErrors => true | _ => false end.

(** The new-bet check of the iteration returns, as it does whenever the
    monitor has its store: [scan_for_bets] catches what its queries raise. *)
Definition scan_returns (it : Iteration) : bool :=
  match scanned it with Returned _ => true | Raised => false end.

(** An iteration in which the page refreshes, the scan returns, the closing
    sleep is taken and no interrupt arrives. *)
Definition smooth (it : Iteration) : bool :=
  refresh_ok it && negb (sleep_refused it) && negb (interrupted it)
  && match scanned it with Returned _ => true | Raised => false end.

(** ** [navigate_to_bet_history] and [_verify_bet_page] *)

(** The browser after a navigation: what [find_elements] answers and what
    [current_url] reads. *)
Record PageView := {
  pv_find : str -> outcome (list WebElement);
  pv_url : outcome str
}.

Definition bet_indicators : list str :=
  [attr_contains (py "class") (py "bet");
   attr_contains (py "class") (py "slip");
   attr_contains (py "class") (py "ticket");
   py ".my-bets";
   py "#betHistory"].

(** The loop over the indicators: [Returned true] at the first one that
    finds an element, [Raised] when a query raises. *)
Fixpoint any_indicator (pv : PageView) (indicators : list str) : outcome bool :=
  match indicators with
  | [] => Returned false
  | indicator :: r =>
      match pv_find pv indicator with
      | Raised => Raised
      | Returned (_ :: _) => Returned true
      | Returned [] => any_indicator pv r
      end
  end.

(** [_verify_bet_page]: any exception gives [False]. *)
Definition _verify_bet_page (pv : PageView) : bool :=
  match any_indicator pv bet_indicators with
  | Raised => false
  | Returned true => true
  | Returned false =>
      match pv_url pv with
      | Raised => false
      | Returned url => str_in (py "bet") (lower url)
      end
  end.

Definition history_urls : list str :=
  [py "https://www.bwin.com/en/sports/my-bets/open";
   py "https://www.bwin.com/en/sports/my-bets";
   py "https://www.bwin.com/en/mybets"].

(** The loop over the URLs; [get url] is the browser after
    [driver.get(url)] and the pause, or [Raised].  The second component
    lists the URLs requested. *)
Fixpoint try_urls (get : str -> outcome PageView) (urls : list str)
  : bool * list str :=
  match urls with
  | [] => (false, [])
  | url :: r =>
      match get url with
      | Raised => (false, [url])
      | Returned pv =>
          if _verify_bet_page pv then (true, [url])
          else let '(ok, visited) := try_urls get r in (ok, url :: visited)
      end
  end.

Definition navigate_to_bet_history (get : str -> outcome PageView)
  : bool * list str :=
  try_urls get history_urls.

(** ** Configuration: the dataclasses, [load_configuration] and [main] *)

Record LoginCredentials := { cred_username : str; cred_password : str }.

Record TelegramConfig := { bot_token : str; chat_id : str }.

(** [not s] on a string *)
Definition is_empty (s : str) : bool :=
  match s with [] => true | _ :: _ => false end.

(** The constructors with their [__post_init__]; [None] is [ValueError]. *)
Definition make_ProxyConfig (h : str) (p : Z) (u pw ip : str) : option ProxyConfig :=
  if is_empty h || is_empty u then None
  else if ((1 <=? p) && (p <=? 65535))%Z then
    Some {| host := h; port := p; username := u; password := pw;
            expected_ip := ip; timeout := 10; verify_ssl := false |}
  else None.

Definition make_LoginCredentials (u pw : str) : option LoginCredentials :=
  if is_empty u || is_empty pw then None
  else Some {| cred_username := u; cred_password := pw |}.

Definition make_TelegramConfig (token chat : str) : option TelegramConfig :=
  if is_empty token || is_empty chat then None
  else Some {| bot_token := token; chat_id := chat |}.

Definition required_vars : list str :=
  [py "PROXY_HOST"; py "PROXY_PORT"; py "PROXY_USERNAME"; py "PROXY_PASSWORD";
   py "EXPECTED_PROXY_IP"; py "BWIN_USERNAME"; py "BWIN_PASSWORD";
   py "TELEGRAM_BOT_TOKEN"; py "TELEGRAM_CHAT_ID"].

(** [os.getenv(var)] with [None] read as the empty string, as every use in
    [load_configuration] after the check of the required variables does. *)
Definition getenv (env : gmap str str) (var : str) : str :=
  default [] (env !! var).

(** [os.getenv(var, fallback)] *)
Definition getenv_or (env : gmap str str) (var fallback : str) : str :=
  default fallback (env !! var).

Record Settings := {
  proxy_settings : ProxyConfig;
  login_settings : LoginCredentials;
  telegram_settings : TelegramConfig;
  check_interval_setting : Z;
  headless_setting : bool
}.

(** The process either goes on with a value or leaves through
    [sys.exit(code)]. *)
Inductive exits (A : Type) : Type :=
| Exit (code : Z)
| Goes (a : A).
Arguments Exit {A} _.
Arguments Goes {A} _.

Section Configuration.
(** Python's [int] on a string: [None] is [ValueError]. *)
Variable int : str -> option Z.

(** [load_configuration], on the environment as it is after the [.env]
    file was read. *)
Definition load_configuration (env : gmap str str) : exits Settings :=
  let missing_vars :=
    List.filter (fun var => is_empty (getenv env var)) required_vars in
  match missing_vars with
  | _ :: _ => Exit 1
  | [] =>
      match int (getenv env (py "PROXY_PORT")) with
      | None => Exit 1
      | Some p =>
          match make_ProxyConfig (getenv env (py "PROXY_HOST")) p
                  (getenv env (py "PROXY_USERNAME"))
                  (getenv env (py "PROXY_PASSWORD"))
                  (getenv env (py "EXPECTED_PROXY_IP")),
                make_LoginCredentials (getenv env (py "BWIN_USERNAME"))
                  (getenv env (py "BWIN_PASSWORD")),
                make_TelegramConfig (getenv env (py "TELEGRAM_BOT_TOKEN"))
                  (getenv env (py "TELEGRAM_CHAT_ID")),
                int (getenv_or env (py "CHECK_INTERVAL") (py "30")) with
          | Some pc, Some lc, Some tc, Some ci =>
              Goes {| proxy_settings := pc; login_settings := lc;
                      telegram_settings := tc; check_interval_setting := ci;
                      headless_setting :=
                        bool_decide
                          (lower (getenv_or env (py "HEADLESS_MODE") (py "false"))
                           = py "true") |}
          | _, _, _, _ => Exit 1
          end
      end
  end.

(** [main]: the side effects of the monitor, and the exit code of the
    process once it has ended ([None] while the loop is still running on
    the iterations supplied). *)
Definition main (env : gmap str str) (w : Startup) (world : list Iteration)
  : list action * option Z :=
  match load_configuration env with
  | Exit code => ([], Some code)
  | Goes cfg =>
      let '(ok, m, started) := initialize (proxy_settings cfg) w in
      if ok then
        let '(_, acts, e) :=
          run_monitoring_loop (check_interval_setting cfg) 5 m world in
        (started ++ acts, match e with StillRunning => None | _ => Some 0%Z end)
      else (started, Some 1%Z)
  end.
End Configuration.

(** ** Reading the side effects *)

Definition is_sleep (a : action) : bool :=
  match a with Sleep _ => true | _ => false end.


(** The records notified, in order. *)
Fixpoint sent_bets (acts : list action) : list BetInfo :=
  match acts with
  | [] => []
  | SendBet bet :: r => bet :: sent_bets r
  | _ :: r => sent_bets r
  end.

(** Every service reports the expected address. *)
Definition network_ok (service : str) : probe :=
  Responded {| status_code := 200; resp_text := py "203.0.113.9";
               resp_json := JsonObject (Some (VStr (py "203.0.113.9"))) |}.

Definition startup_ok : Startup :=
  {| network := network_ok; decode_error_is_request_exception := true;
     notifier_built := true; chrome_launched := true;
     attempt_ok := fun n => Nat.eqb n 2; history_reached := true |}.

(** The proxy is fine and Chrome starts, but no login attempt succeeds. *)
Definition startup_login_fails : Startup :=
  {| network := network_ok; decode_error_is_request_exception := true;
     notifier_built := true; chrome_launched := true;
     attempt_ok := fun _ => false; history_reached := true |}.

(** A service neither confirms the proxy nor breaks the check. *)
Definition passes (proxy_config : ProxyConfig) (get : str -> probe)
    (flag : bool) (service : str) : Prop :=
  confirms proxy_config get service = false /\ breaks get flag service = false.

(** The identifier made up for an element without one:
    [f"{prefix}{int(time.time())}_{index}"]. *)
Definition synthesized (prefix : str) (t : Z) (index : nat) : str :=
  prefix ++ str_of_Z t ++ py "_" ++ str_of_nat index.

(** The element has no usable [id] attribute. *)
Definition no_native_id (e : WebElement) : Prop :=
  el_id e = Returned None \/ el_id e = Returned (Some []).

(** A table row of four cells. *)
Definition row_a : WebElement :=
  {| el_ref := 8; el_text := Returned (py "Arsenal vs Chelsea 1X2 €25.00 2.40");
     el_id := Returned None;
     el_cells := Returned [Returned (py "Arsenal vs Chelsea"); Returned (py "1X2");
                           Returned (py " €25.00 "); Returned (py "2.40")] |}.

Definition clock1 : Clock := {| epoch := 1700000030; stamp := py "2023-11-14 22:13:50" |}.

(** The scenario container without an [id] attribute. *)
Definition anonymous_element : WebElement :=
  {| el_ref := 2; el_text := Returned scenario_text;
     el_id := Returned None; el_cells := Returned [] |}.

(** A page on which no indicator is found and whose address is [url]. *)
Definition bare_page (url : str) : PageView :=
  {| pv_find := fun _ => Returned []; pv_url := Returned url |}.

(** A complete environment whose check interval is negative. *)
Definition env0 : gmap str str :=
  list_to_map
    [(py "PROXY_HOST", py "proxy.example"); (py "PROXY_PORT", py "8080");
     (py "PROXY_USERNAME", py "user"); (py "PROXY_PASSWORD", py "secret");
     (py "EXPECTED_PROXY_IP", py "203.0.113.9");
     (py "BWIN_USERNAME", py "punter"); (py "BWIN_PASSWORD", py "hunter2");
     (py "TELEGRAM_BOT_TOKEN", py "123:abc"); (py "TELEGRAM_CHAT_ID", py "42");
     (py "CHECK_INTERVAL", py "-5")].

(** [int] on the three numerals the examples use. *)
Definition int0 (s : str) : option Z :=
  if bool_decide (s = py "8080") then Some 8080%Z
  else if bool_decide (s = py "-5") then Some (-5)%Z
  else if bool_decide (s = py "30") then Some 30%Z
  else None.

(** * Properties *)

(** ** Strings *)

Lemma find_first (p : str -> bool) (lines : list str) (line : str) :
  find p lines = Some line <-> first_line p lines line.
Proof.
  unfold first_line. induction lines as [|l lines IH]; simpl.
  - split; [discriminate|]. intros (before & after & H & _).
    destruct before; discriminate.
  - destruct (p l) eqn:Hp.
    + split.
      * intros [= <-]. exists [], lines. auto.
      * intros (before & after & H & Hl & Hb). destruct before as [|x before].
        -- simpl in H. congruence.
        -- simpl in H. injection H as <- _. inversion Hb. congruence.
    + rewrite IH. split.
      * intros (before & after & -> & Hl & Hb).
        exists (l :: before), after. auto.
      * intros (before & after & H & Hl & Hb). destruct before as [|x before].
        -- simpl in H. injection H as <- _. congruence.
        -- simpl in H. injection H as <- ->. inversion Hb. eauto.
Qed.

Lemma find_absent (p : str -> bool) (lines : list str) :
  find p lines = None <-> Forall (fun l => p l = false) lines.
Proof.
  induction lines as [|l lines IH]; simpl.
  - split; auto.
  - destruct (p l) eqn:Hp.
    + split; [discriminate|]. intros H. inversion H. congruence.
    + rewrite IH. split; [auto|]. intros H. inversion H. auto.
Qed.

Lemma skip_digits_split (s : str) :
  exists ds, s = ds ++ skip_digits s /\ forallb is_digit ds = true.
Proof.
  induction s as [|c s (ds & Hs & Hd)]; simpl.
  - exists []. auto.
  - destruct (is_digit c) eqn:Hc.
    + exists (c :: ds). simpl. rewrite Hc, Hd. split; [congruence|reflexivity].
    + exists []. auto.
Qed.

Lemma skip_digits_run (ds rest : str) :
  forallb is_digit ds = true -> skip_digits (ds ++ 46 :: rest) = 46 :: rest.
Proof.
  induction ds as [|d ds IH]; simpl; [reflexivity|].
  intros H. apply andb_prop in H as [-> H]. auto.
Qed.

Lemma re_search_odds_app (pre s : str) :
  re_search_odds s = true -> re_search_odds (pre ++ s) = true.
Proof.
  induction pre as [|c pre IH]; simpl; [auto|].
  intros H. rewrite (IH H). apply orb_true_r.
Qed.

(** The search of the code finds a match exactly on the lines the
    specification describes. *)
Lemma re_search_odds_spec (line : str) :
  re_search_odds line = true <-> spec_odds_line line.
Proof.
  split.
  - induction line as [|c r IH]; simpl; [discriminate|].
    intros H. apply orb_prop in H as [H|H].
    + apply andb_prop in H as [Hc H].
      destruct (skip_digits_split r) as (ds & Hr & Hds).
      destruct (skip_digits r) as [|d [|a [|b post]]]; try discriminate.
      apply andb_prop in H as [H Hb]. apply andb_prop in H as [Hd Ha].
      apply N.eqb_eq in Hd. subst d.
      exists [], (c :: ds), a, b, post. simpl. rewrite Hc, Hds.
      repeat split; try assumption; [|discriminate].
      f_equal. rewrite Hr at 1. reflexivity.
    + destruct (IH H) as (pre & ds & a & b & post & -> & Hne & Hds & Ha & Hb).
      exists (c :: pre), ds, a, b, post. auto.
  - intros (pre & ds & a & b & post & -> & Hne & Hds & Ha & Hb).
    apply re_search_odds_app.
    destruct ds as [|d ds]; [congruence|]. simpl in Hds.
    apply andb_prop in Hds as [Hd Hds].
    cbn [app re_search_odds odds_pattern_here]. rewrite Hd.
    change ([46; a; b] ++ post) with (46 :: a :: b :: post).
    rewrite (skip_digits_run ds _ Hds), Ha, Hb. reflexivity.
Qed.

Lemma lstrip_head (s : str) :
  match lstrip s with [] => True | c :: _ => is_space c = false end.
Proof.
  induction s as [|c s IH]; simpl; [exact I|].
  destruct (is_space c) eqn:Hc; [exact IH|exact Hc].
Qed.

Lemma lstrip_suffix (s : str) : exists pre, s = pre ++ lstrip s.
Proof.
  induction s as [|c s [pre IH]]; simpl.
  - exists []. reflexivity.
  - destruct (is_space c).
    + exists (c :: pre). simpl. congruence.
    + exists []. reflexivity.
Qed.

Lemma rstrip_prefix (s : str) : exists post, s = rstrip s ++ post.
Proof.
  unfold rstrip. destruct (lstrip_suffix (rev s)) as [pre H].
  exists (rev pre). rewrite <- rev_app_distr, <- H, rev_involutive. reflexivity.
Qed.

(** A stripped text is empty or starts with a character that is no white
    space. *)
Lemma strip_head (raw : str) :
  match strip raw with [] => True | c :: _ => is_space c = false end.
Proof.
  unfold strip. pose proof (lstrip_head raw) as Hh.
  destruct (rstrip_prefix (lstrip raw)) as [post Hp].
  destruct (rstrip (lstrip raw)) as [|c r]; [exact I|].
  rewrite Hp in Hh. exact Hh.
Qed.

Lemma split_lines_head (c : N) (r : str) :
  c <> LF -> exists l ls, split_lines (c :: r) = (c :: l) :: ls.
Proof.
  intros Hc. simpl. destruct (N.eqb_spec c LF) as [->|_]; [congruence|].
  destruct (split_lines r) as [|l ls]; eauto.
Qed.

(** The first line of a stripped, non-empty text is not empty. *)
Lemma first_line_of_stripped (raw : str) :
  strip raw <> [] ->
  exists c l ls, split_lines (strip raw) = (c :: l) :: ls.
Proof.
  intros Hne. pose proof (strip_head raw) as Hh.
  destruct (strip raw) as [|c r]; [congruence|].
  destruct (split_lines_head c r) as (l & ls & H); [|eauto].
  intros ->. discriminate.
Qed.

(** ** The field extractors *)

(** What a matcher with a sentinel returns. *)
Lemma find_matched_or_sentinel (p : str -> bool) (lines : list str) (sentinel : str) :
  matched_or_sentinel p sentinel lines
    (match find p lines with Some line => line | None => sentinel end).
Proof.
  destruct (find p lines) as [line|] eqn:H.
  - left. apply find_first. exact H.
  - right. split; [apply find_absent; exact H|reflexivity].
Qed.

Lemma find_not_empty (p : str -> bool) (lines : list str) (sentinel : str) :
  p [] = false -> sentinel <> [] ->
  match find p lines with Some line => line | None => sentinel end <> [].
Proof.
  intros Hp Hs. destruct (find p lines) as [line|] eqn:H; [|exact Hs].
  apply List.find_some in H as [_ H]. intros ->. congruence.
Qed.


(** C1.  Whatever the clock, the index and the [id] attribute, the
    scenario block "Arsenal vs Chelsea / 1X2 Home / €25.00 stake / 2.40 /
    Possible win €60.00" extracts to participants "Arsenal vs Chelsea",
    market "1X2 Home", stake "€25.00 stake" and payout
    "Possible win €60.00", as the scenario has them, but its odds come out
    as "€25.00 stake", the value of the stake field, and not as "2.40".
    [_extract_odds] returns the first line in which the search finds one
    or more digits, a dot and two digits; in the block that is the stake
    line, with its "25.00", which comes before the line "2.40". *)
Theorem C1_scenario_extraction :
  (forall clk ref attr cells index,
     _extract_bet_info clk
       {| el_ref := ref; el_text := Returned scenario_text;
          el_id := Returned attr; el_cells := cells |} index
     = Some {| betslip_id :=
                 or_default attr
                   (py "bet_" ++ str_of_Z (epoch clk) ++ py "_" ++ str_of_nat index);
               teams := py "Arsenal vs Chelsea";
               market := py "1X2 Home";
               stake := py "€25.00 stake";
               odds := py "€25.00 stake";
               possible_winnings := py "Possible win €60.00";
               bet_time := stamp clk;
               status := py "Active" |})
  /\ (forall clk ref attr cells index r,
        _extract_bet_info clk
          {| el_ref := ref; el_text := Returned scenario_text;
             el_id := Returned attr; el_cells := cells |} index = Some r ->
        odds r <> py "2.40" /\ odds r = stake r)
  /\ first_line re_search_odds (split_lines (strip scenario_text))
                (py "€25.00 stake")
  /\ (forall lines,
        first_line re_search_odds lines (_extract_odds lines)
        \/ (Forall (fun l => re_search_odds l = false) lines
            /\ _extract_odds lines = py "Unknown Odds"))
  /\ (forall line, re_search_odds line = true <-> spec_odds_line line).
Proof.
  assert (forall clk ref attr cells index,
     _extract_bet_info clk
       {| el_ref := ref; el_text := Returned scenario_text;
          el_id := Returned attr; el_cells := cells |} index
     = Some {| betslip_id :=
                 or_default attr
                   (py "bet_" ++ str_of_Z (epoch clk) ++ py "_" ++ str_of_nat index);
               teams := py "Arsenal vs Chelsea";
               market := py "1X2 Home";
               stake := py "€25.00 stake";
               odds := py "€25.00 stake";
               possible_winnings := py "Possible win €60.00";
               bet_time := stamp clk;
               status := py "Active" |}) as Hscenario.
  { intros clk ref attr cells index. unfold _extract_bet_info. cbn [el_text el_id].
    assert (split_lines (strip scenario_text)
            = [py "Arsenal vs Chelsea"; py "1X2 Home"; py "€25.00 stake";
               py "2.40"; py "Possible win €60.00"]) as -> by (vm_compute; reflexivity).
    assert ((length (strip scenario_text) <? 10)%nat = false) as ->
      by (vm_compute; reflexivity).
    f_equal. }
  split; [exact Hscenario|]. split; [|split; [|split]].
  - intros clk ref attr cells index r. rewrite Hscenario. intros [= <-].
    cbn [odds stake]. split; [vm_compute; discriminate|reflexivity].
  - apply find_first. vm_compute. reflexivity.
  - intros lines. unfold _extract_odds.
    destruct (find re_search_odds lines) as [line|] eqn:H.
    + left. apply find_first. exact H.
    + right. split; [apply find_absent; exact H|reflexivity].
  - exact re_search_odds_spec.
Qed.

(** C6, as the code has it.  Every record the container extractor produces
    comes from a readable text whose lines are the input.  Market, stake,
    odds and payout are each the first line that qualifies for the field's
    matcher, or exactly the sentinel of the field ("Unknown Market",
    "Unknown Stake", "Unknown Odds", "Unknown Winnings") when no line
    qualifies.  The participants are the first line with a team separator
    or, when no line has one, the first line of the input as it is;
    "Unknown Teams" stands for an empty list of lines only, which the
    extractor never passes on.  No field is empty, and what one matcher
    finds does not depend on the others. *)
Theorem C6_sentinel_completeness (clk : Clock) (e : WebElement) (i : nat)
    (r : BetInfo) :
  _extract_bet_info clk e i = Some r ->
  exists raw, el_text e = Returned raw /\
    let lines := split_lines (strip raw) in
    (first_line teams_line lines (teams r)
     \/ (Forall (fun l => teams_line l = false) lines
         /\ exists rest, lines = teams r :: rest))
    /\ (matched_or_sentinel market_line (py "Unknown Market") lines (market r)
        /\ matched_or_sentinel stake_line (py "Unknown Stake") lines (stake r)
        /\ matched_or_sentinel re_search_odds (py "Unknown Odds") lines (odds r)
        /\ matched_or_sentinel winnings_line (py "Unknown Winnings") lines
             (possible_winnings r))
    /\ (teams r <> [] /\ market r <> [] /\ stake r <> [] /\ odds r <> []
        /\ possible_winnings r <> [])
    /\ _extract_teams [] = py "Unknown Teams".
Proof.
  intros H. unfold _extract_bet_info in H.
  destruct (el_text e) as [|raw]; [discriminate|]. exists raw. split; [reflexivity|].
  destruct (Nat.ltb_spec (length (strip raw)) 10) as [|Hlen]; [discriminate|].
  destruct (el_id e) as [|attr]; [discriminate|]. injection H as <-.
  cbn [teams market stake odds possible_winnings].
  assert (strip raw <> []) as Hne by (intros Heq; rewrite Heq in Hlen; simpl in Hlen; lia).
  destruct (first_line_of_stripped raw Hne) as (c & l & ls & Hl).
  cbv zeta. rewrite Hl. split; [|split; [|split]].
  - unfold _extract_teams.
    destruct (find teams_line ((c :: l) :: ls)) as [line|] eqn:Hf.
    + left. apply find_first. exact Hf.
    + right. split; [apply find_absent; exact Hf|]. exists ls. reflexivity.
  - repeat split; apply find_matched_or_sentinel.
  - repeat split; apply find_not_empty; (reflexivity || discriminate).
  - reflexivity.
Qed.

Lemma C6_witness :
  exists raw, el_text scenario_element = Returned raw /\
              first_line stake_line (split_lines (strip raw)) (py "€25.00 stake").
Proof.
  destruct (C6_sentinel_completeness clock0 scenario_element 0
              {| betslip_id := py "slip-1";
                 teams := py "Arsenal vs Chelsea";
                 market := py "1X2 Home";
                 stake := py "€25.00 stake";
                 odds := py "€25.00 stake";
                 possible_winnings := py "Possible win €60.00";
                 bet_time := stamp clock0;
                 status := py "Active" |} ltac:(vm_compute; reflexivity))
    as (raw & Ht & _ & (_ & Hs & _) & _).
  exists raw. split; [exact Ht|].
  destruct Hs as [Hs|[Hs _]]; [exact Hs|].
  exfalso. injection Ht as <-. revert Hs. vm_compute. intros Hs.
  inversion Hs as [|? ? _ Hs1]. inversion Hs1 as [|? ? _ Hs2].
  inversion Hs2 as [|? ? Hx _]. discriminate Hx.
Defined.

(** C6, as stated, fails for the participants: in a block whose first
    line is "Arsenal Chelsea" and in which no line has a team separator,
    the field is that line, which its matcher did not match and which is
    not "Unknown Teams". *)
Lemma C6_counterexample :
  option_map teams (_extract_bet_info clock0 plain_element 0)
  = Some (py "Arsenal Chelsea")
  /\ teams_line (py "Arsenal Chelsea") = false
  /\ py "Arsenal Chelsea" <> py "Unknown Teams"
  /\ Forall (fun l => teams_line l = false)
            [py "Arsenal Chelsea"; py "1X2 Home"; py "€25.00 stake"].
Proof.
  split; [vm_compute; reflexivity|]. split; [vm_compute; reflexivity|].
  split; [vm_compute; discriminate|]. repeat constructor.
Qed.

(** ** The de-duplicating store *)

(** What a scan does to a store: it accepts a duplicate-free selection
    [extra] of the presented records, none of them known before. *)
Lemma fold_consider (current : list BetInfo) :
  forall (new_bets : list BetInfo) (st : BetStore),
  exists extra,
    fold_left consider current (new_bets, st)
    = (new_bets ++ extra,
       {| known_bets := list_to_set (ids extra) ∪ known_bets st;
          bet_history := bet_history st ++ extra |})
    /\ NoDup (ids extra)
    /\ (forall b, b ∈ extra -> b ∈ current /\ betslip_id b ∉ known_bets st)
    /\ (forall b, b ∈ current ->
                  betslip_id b ∈ list_to_set (C := gset str) (ids extra) ∪ known_bets st).
Proof.
  induction current as [|bet current IH]; intros new_bets st.
  - exists []. simpl. rewrite !app_nil_r. split; [|split; [|split]].
    + destruct st as [k h]. simpl. do 2 f_equal. set_solver.
    + constructor.
    + intros b Hb. inversion Hb.
    + intros b Hb. inversion Hb.
  - simpl. destruct (decide (betslip_id bet ∈ known_bets st)) as [Hin|Hnot].
    + destruct (IH new_bets st) as (extra & Heq & Hnd & Hsel & Hall).
      exists extra. split; [|split; [|split]]; try assumption.
      * intros b Hb. destruct (Hsel b Hb). split; [now right|assumption].
      * intros b Hb. apply elem_of_cons in Hb as [->|Hb]; [set_solver|auto].
    + destruct (IH (new_bets ++ [bet])
                   {| known_bets := {[betslip_id bet]} ∪ known_bets st;
                      bet_history := bet_history st ++ [bet] |})
        as (extra & Heq & Hnd & Hsel & Hall).
      cbn [known_bets bet_history] in *.
      exists (bet :: extra). split; [|split; [|split]].
      * rewrite Heq, <- !app_assoc. simpl. do 2 f_equal. set_solver.
      * simpl. apply NoDup_cons. split; [|exact Hnd].
        intros Hid. apply list_elem_of_fmap in Hid as (b & Hb1 & Hb2).
        destruct (Hsel b Hb2) as [_ Hk]. set_solver.
      * intros b Hb. apply elem_of_cons in Hb as [->|Hb].
        -- split; [left|exact Hnot].
        -- destruct (Hsel b Hb) as [Hc Hk]. split; [now right|set_solver].
      * intros b Hb. apply elem_of_cons in Hb as [->|Hb]; [set_solver|].
        specialize (Hall b Hb). set_solver.
Qed.

Lemma check_for_new_bets_spec (current : list BetInfo) (st : BetStore) :
  exists extra,
    check_for_new_bets current st
    = (extra, {| known_bets := list_to_set (ids extra) ∪ known_bets st;
                 bet_history := bet_history st ++ extra |})
    /\ NoDup (ids extra)
    /\ (forall b, b ∈ extra -> b ∈ current /\ betslip_id b ∉ known_bets st)
    /\ (forall b, b ∈ current ->
                  betslip_id b ∈ list_to_set (C := gset str) (ids extra) ∪ known_bets st).
Proof. exact (fold_consider current [] st). Qed.

(** When every presented identifier is known, nothing is accepted and the
    store stays as it is. *)
Lemma check_all_known (current : list BetInfo) (st : BetStore) :
  (forall b, b ∈ current -> betslip_id b ∈ known_bets st) ->
  check_for_new_bets current st = ([], st).
Proof.
  unfold check_for_new_bets. generalize (@nil BetInfo) as nb.
  induction current as [|bet current IH]; intros nb Hk; [reflexivity|].
  simpl. destruct (decide (betslip_id bet ∈ known_bets st)) as [Hin|Hnot].
  - apply IH. intros b Hb. apply Hk. now right.
  - exfalso. apply Hnot, Hk. left.
Qed.

Lemma fold_consider_from (current : list BetInfo) :
  forall (new_bets : list BetInfo) (st : BetStore),
    fold_left consider current (new_bets, st)
    = (new_bets ++ fst (fold_left consider current ([], st)),
       snd (fold_left consider current ([], st))).
Proof.
  induction current as [|bet current IH]; intros new_bets st; simpl.
  - now rewrite app_nil_r.
  - destruct (decide (betslip_id bet ∈ known_bets st)); [apply IH|].
    rewrite (IH (new_bets ++ [bet])), (IH [bet]). simpl.
    now rewrite <- app_assoc.
Qed.

Lemma check_grows (current : list BetInfo) (st : BetStore) :
  known_bets st ⊆ known_bets (snd (check_for_new_bets current st))
  /\ bet_history (snd (check_for_new_bets current st))
     = bet_history st ++ fst (check_for_new_bets current st).
Proof.
  destruct (check_for_new_bets_spec current st) as (extra & -> & _).
  simpl. split; [set_solver|reflexivity].
Qed.

Lemma checks_grow (scans : list (list BetInfo)) :
  forall st, known_bets st ⊆ known_bets (checks scans st).
Proof.
  induction scans as [|current scans IH]; intros st; [reflexivity|].
  simpl. etrans; [apply (check_grows current st)|apply IH].
Qed.

(** C7.  A record presented alone is accepted exactly when its identifier
    is not in the seen-set, and acceptance adds the identifier and appends
    the record; a scan treats its records one after the other.  No
    accepted record has an identifier that was already in the set;
    identifiers never leave the set and every presented identifier is in
    it afterwards; so once a record was presented in a scan, no later scan,
    however many scans lie in between, accepts a record with its
    identifier; and a scan that presents only identifiers already in the
    set accepts nothing, leaves set and history as they are, and makes the
    loop send no bet notification. *)
Theorem C7_dedup_idempotence :
  (forall bet st,
     check_for_new_bets [bet] st
     = if decide (betslip_id bet ∈ known_bets st) then ([], st)
       else ([bet], {| known_bets := {[betslip_id bet]} ∪ known_bets st;
                       bet_history := bet_history st ++ [bet] |}))
  /\ (forall bet rest st,
        check_for_new_bets (bet :: rest) st
        = (fst (check_for_new_bets [bet] st)
           ++ fst (check_for_new_bets rest (snd (check_for_new_bets [bet] st))),
           snd (check_for_new_bets rest (snd (check_for_new_bets [bet] st)))))
  /\ (forall current st bet,
        bet ∈ fst (check_for_new_bets current st) ->
        bet ∈ current /\ betslip_id bet ∉ known_bets st)
  /\ (forall current st,
        known_bets st ⊆ known_bets (snd (check_for_new_bets current st))
        /\ bet_history (snd (check_for_new_bets current st))
           = bet_history st ++ fst (check_for_new_bets current st))
  /\ (forall current st bet,
        bet ∈ current ->
        betslip_id bet ∈ known_bets (snd (check_for_new_bets current st)))
  /\ (forall first between later st bet again,
        bet ∈ first ->
        again ∈ fst (check_for_new_bets later
                       (checks between (snd (check_for_new_bets first st)))) ->
        betslip_id again <> betslip_id bet)
  /\ (forall current st,
        (forall bet, bet ∈ current -> betslip_id bet ∈ known_bets st) ->
        check_for_new_bets current st = ([], st))
  /\ (forall check_interval l it st current,
        store l = Some st -> scanned it = Returned current ->
        (forall bet, bet ∈ current -> betslip_id bet ∈ known_bets st) ->
        List.filter is_send_bet (snd (fst (try_body check_interval l it))) = []).
Proof.
  split; [|split; [|split; [|split; [|split; [|split; [|split]]]]]].
  - intros bet st. unfold check_for_new_bets. simpl.
    destruct (decide (betslip_id bet ∈ known_bets st)); reflexivity.
  - intros bet rest st. unfold check_for_new_bets. simpl.
    destruct (decide (betslip_id bet ∈ known_bets st)); simpl.
    + destruct (fold_left consider rest ([], st)); reflexivity.
    + now rewrite fold_consider_from.
  - intros current st bet.
    destruct (check_for_new_bets_spec current st) as (extra & -> & _ & Hsel & _).
    apply Hsel.
  - apply check_grows.
  - intros current st bet Hb.
    destruct (check_for_new_bets_spec current st) as (extra & -> & _ & _ & Hall).
    apply Hall, Hb.
  - intros first between later st bet again Hb Ha Heq.
    destruct (check_for_new_bets_spec later
                (checks between (snd (check_for_new_bets first st))))
      as (extra & Hc & _ & Hsel & _).
    rewrite Hc in Ha. destruct (Hsel again Ha) as [_ Hk]. apply Hk.
    apply checks_grow. rewrite Heq.
    destruct (check_for_new_bets_spec first st) as (extra' & -> & _ & _ & Hall).
    apply Hall, Hb.
  - apply check_all_known.
  - intros ci l it st current Hst Hsc Hk. unfold try_body. rewrite Hst, Hsc.
    rewrite (check_all_known current st Hk).
    destruct (check_count l mod 10 =? 0)%Z, (refresh_ok it),
      (ci =? 0)%Z, (3600 / ci =? 0)%Z, (check_count l mod (3600 / ci) =? 0)%Z;
      reflexivity.
Qed.

(** ** The store invariant *)

Lemma reachable_inv (st : BetStore) :
  reachable st ->
  known_bets st = list_to_set (ids (bet_history st))
  /\ NoDup (ids (bet_history st)).
Proof.
  induction 1 as [|st current _ [IHk IHn]].
  - split; [reflexivity|constructor].
  - destruct (check_for_new_bets_spec current st)
      as (extra & -> & Hnd & Hsel & _). simpl.
    unfold ids in *. rewrite map_app. split.
    + rewrite list_to_set_app_L, IHk. set_solver.
    + apply NoDup_app. split; [exact IHn|split; [|exact Hnd]].
      intros x Hx Hx'. apply list_elem_of_fmap in Hx' as (b & -> & Hb).
      destruct (Hsel b Hb) as [_ Hk]. apply Hk. rewrite IHk.
      apply elem_of_list_to_set. exact Hx.
Qed.

(** C10.  In every store a run can reach (any number of new-bet checks
    from the empty store) the seen-set has as many identifiers as the
    history has records and holds the identifier of every history record;
    and a further check only enlarges the set and extends the history at
    its end. *)
Theorem C10_lockstep (st : BetStore) :
  reachable st ->
  size (known_bets st) = length (bet_history st)
  /\ (forall bet, bet ∈ bet_history st -> betslip_id bet ∈ known_bets st)
  /\ (forall current,
        known_bets st ⊆ known_bets (snd (check_for_new_bets current st))
        /\ bet_history st `prefix_of`
             bet_history (snd (check_for_new_bets current st))).
Proof.
  intros Hr. destruct (reachable_inv st Hr) as [Hk Hn]. split; [|split].
  - rewrite Hk, size_list_to_set by exact Hn. unfold ids. apply length_map.
  - intros bet Hb. rewrite Hk. apply elem_of_list_to_set.
    unfold ids. apply list_elem_of_fmap. eauto.
  - intros current. destruct (check_grows current st) as [Hs Hh].
    split; [exact Hs|]. rewrite Hh. now exists (fst (check_for_new_bets current st)).
Qed.

Lemma C10_witness :
  size (known_bets (snd (check_for_new_bets [bet_a; bet_b; bet_a] new_store))) = 2%nat
  /\ length (bet_history (snd (check_for_new_bets [bet_a; bet_b; bet_a] new_store))) = 2%nat.
Proof.
  pose proof (C10_lockstep (snd (check_for_new_bets [bet_a; bet_b; bet_a] new_store))
                (reach_check new_store [bet_a; bet_b; bet_a] reach_init)) as [H _].
  assert (length (bet_history (snd (check_for_new_bets [bet_a; bet_b; bet_a] new_store)))
          = 2%nat) as Hl by (vm_compute; reflexivity).
  split; [rewrite H|]; exact Hl.
Defined.

(** ** The table-row fallback *)

Lemma cell_texts_readable (raws : list str) :
  cell_texts (map Returned raws) = Returned (map strip raws).
Proof.
  induction raws as [|t raws IH]; simpl; [reflexivity|]. now rewrite IH.
Qed.

(** The texts are read exactly when every cell is readable. *)
Lemma cell_texts_cases (cells : list (outcome str)) :
  match cell_texts cells with
  | Returned texts => exists raws, cells = map Returned raws /\ texts = map strip raws
  | Raised => In Raised cells
  end.
Proof.
  induction cells as [|[|t] cells IH]; cbn [cell_texts].
  - exists []. split; reflexivity.
  - left. reflexivity.
  - destruct (cell_texts cells) as [|texts].
    + right. exact IH.
    + destruct IH as (raws & -> & ->). exists (t :: raws). split; reflexivity.
Qed.

Lemma gather_ext (f g : str -> outcome (list WebElement)) (selectors : list str) :
  (forall sel, In sel selectors -> f sel = g sel) ->
  gather f selectors = gather g selectors.
Proof.
  induction selectors as [|sel selectors IH]; intros H; simpl; [reflexivity|].
  rewrite (H sel) by (left; reflexivity).
  rewrite IH by (intros s Hs; apply H; right; exact Hs). reflexivity.
Qed.

(** C8, as the code has it.  When the container strategy yields a record,
    the scan returns its records and does not depend on what the row query
    would find; when it yields none, the scan is the row strategy.  A row
    gives a record exactly when its cells can be listed, there are at least
    three of them and the text of every one of them can be read, those
    after the fifth included; the record maps the stripped texts of the
    cells by position to participants, market, stake, odds and payout,
    with "Unknown" for a missing fourth or fifth cell.  A row with fewer
    than three cells gives no record, and neither does a row with a cell
    whose text cannot be read. *)
Theorem C8_table_fallback :
  (forall f g set_order clock_cards clock_rows bet_elements,
     (forall sel, In sel bet_selectors -> f sel = g sel) ->
     gather f bet_selectors = Returned bet_elements ->
     scan_cards set_order clock_cards bet_elements <> [] ->
     scan_for_bets f set_order clock_cards clock_rows
     = scan_cards set_order clock_cards bet_elements
     /\ scan_for_bets g set_order clock_cards clock_rows
        = scan_cards set_order clock_cards bet_elements)
  /\ (forall f set_order clock_cards clock_rows bet_elements,
        gather f bet_selectors = Returned bet_elements ->
        scan_cards set_order clock_cards bet_elements = [] ->
        scan_for_bets f set_order clock_cards clock_rows
        = match f row_selector with
          | Raised => []
          | Returned table_rows => scan_rows clock_rows table_rows
          end)
  /\ (forall clk row index c0 c1 c2 more,
        el_cells row = Returned (map Returned (c0 :: c1 :: c2 :: more)) ->
        _extract_bet_from_row clk row index
        = Some {| betslip_id :=
                    py "row_bet_" ++ str_of_Z (epoch clk) ++ py "_"
                    ++ str_of_nat index;
                  teams := strip c0;
                  market := strip c1;
                  stake := strip c2;
                  odds := nth 0 (map strip more) (py "Unknown");
                  possible_winnings := nth 1 (map strip more) (py "Unknown");
                  bet_time := stamp clk;
                  status := py "Active" |})
  /\ (forall clk row index cells,
        el_cells row = Returned cells -> (length cells < 3)%nat ->
        _extract_bet_from_row clk row index = None)
  /\ (forall clk row index,
        is_Some (_extract_bet_from_row clk row index) <->
        exists raws, el_cells row = Returned (map Returned raws)
                     /\ (3 <= length raws)%nat)
  /\ (forall clk row index cells,
        el_cells row = Returned cells -> In Raised cells ->
        _extract_bet_from_row clk row index = None).
Proof.
  split; [|split; [|split; [|split; [|split]]]].
  - intros f g so cc cr els Hfg Hg Hne.
    unfold scan_for_bets. rewrite <- (gather_ext f g _ Hfg), Hg.
    destruct (scan_cards so cc els); [congruence|]. split; reflexivity.
  - intros f so cc cr els Hg Hnil. unfold scan_for_bets. now rewrite Hg, Hnil.
  - intros clk row index c0 c1 c2 more Hc. unfold _extract_bet_from_row.
    rewrite Hc, cell_texts_readable. reflexivity.
  - intros clk row index cells Hc Hlen. unfold _extract_bet_from_row. rewrite Hc.
    destruct (Nat.ltb_spec (length cells) 3); [reflexivity|lia].
  - intros clk row index. unfold _extract_bet_from_row. split.
    + intros [r H]. destruct (el_cells row) as [|cells]; [discriminate|].
      destruct (Nat.ltb_spec (length cells) 3) as [|Hlen]; [discriminate|].
      pose proof (cell_texts_cases cells) as Hcells.
      destruct (cell_texts cells) as [|texts]; [discriminate|].
      destruct Hcells as (raws & -> & _). exists raws. split; [reflexivity|].
      now rewrite length_map in Hlen.
    + intros (raws & -> & Hlen). rewrite length_map, cell_texts_readable.
      destruct (Nat.ltb_spec (length raws) 3); [lia|]. eauto.
  - intros clk row index cells Hc Hin. unfold _extract_bet_from_row. rewrite Hc.
    destruct (length cells <? 3)%nat; [reflexivity|].
    pose proof (cell_texts_cases cells) as Hcells.
    destruct (cell_texts cells) as [|texts]; [reflexivity|].
    destruct Hcells as (raws & -> & _). apply in_map_iff in Hin as (t & Ht & _).
    discriminate Ht.
Qed.

(** C8, as stated, fails on a row of two cells: no record is produced, so
    no cell is mapped and no field is defaulted.  It fails as well on a row
    of seven cells the last of which cannot be read: its first five cells
    are not mapped either. *)
Lemma C8_counterexample :
  _extract_bet_from_row clock0 short_row 0 = None
  /\ scan_rows (fun _ => clock0) [short_row] = []
  /\ _extract_bet_from_row clock0 torn_row 0 = None
  /\ scan_rows (fun _ => clock0) [torn_row] = [].
Proof. repeat split; reflexivity. Qed.

(** ** [save_bet_history] *)









(** Three runs on the disk of the counterexample: a save in which nothing
    raises, one that cannot open the file, and one that meets a full disk
    after forty characters. *)
Example save_bet_history_runs :
  save_bet_history storage_buffered history_file (py "2023-11-14T22:14:20")
    store_ab disk0 !! history_file
  = Some (dumps (history_data (py "2023-11-14T22:14:20") store_ab))
  /\ save_bet_history storage_locked history_file (py "2023-11-14T22:14:20")
       store_ab disk0 = disk0
  /\ save_bet_history storage_full history_file (py "2023-11-14T22:14:20")
       store_ab disk0 !! history_file
     = Some (take 40 (dumps (history_data (py "2023-11-14T22:14:20") store_ab))).
Proof.
  split; [|split].
  - unfold save_bet_history. cbn [open_raises storage_buffered].
    destruct (dump _ 0 _ _) as [f ok] eqn:Hd.
    rewrite lookup_insert_eq. f_equal.
    change f with (fst (f, ok)). rewrite <- Hd. vm_compute. reflexivity.
  - reflexivity.
  - unfold save_bet_history. cbn [open_raises storage_full].
    destruct (dump _ 0 _ _) as [f ok] eqn:Hd.
    rewrite lookup_insert_eq. f_equal.
    change f with (fst (f, ok)). rewrite <- Hd. vm_compute. reflexivity.
Qed.

(** ** The proxy kill switch *)

Section ProxyFacts.
Variable proxy_config : ProxyConfig.
Variable get : str -> probe.
Variable flag : bool.

(** One service at a time: a confirming service ends the check with
    [True], a breaking one with an exception, any other is passed over. *)
Lemma verify_services_step (service : str) (rest : list str) :
  verify_services proxy_config get flag (service :: rest)
  = if confirms proxy_config get service then Returned true
    else if breaks get flag service then Raised
    else verify_services proxy_config get flag rest.
Proof.
  unfold confirms, breaks. cbn [verify_services].
  destruct (get service) as [|response]; [reflexivity|].
  destruct (status_code response =? 200)%Z; [|reflexivity]. cbn [andb].
  destruct (str_in (py "json") service); cbn [andb].
  - destruct (resp_json response) as [|ip|]; [destruct flag| |]; reflexivity.
  - destruct (bool_decide (strip (resp_text response) = expected_ip proxy_config));
      reflexivity.
Qed.

(** As long as no service breaks the check, it returns, and it returns
    [False] exactly when no service confirms. *)
Lemma verify_services_clean (services : list str) :
  Forall (fun s => breaks get flag s = false) services ->
  verify_services proxy_config get flag services
  = Returned (existsb (confirms proxy_config get) services).
Proof.
  induction 1 as [|service rest Hb _ IH]; [reflexivity|].
  rewrite verify_services_step, Hb, IH. cbn [existsb].
  destruct (confirms proxy_config get service); reflexivity.
Qed.
End ProxyFacts.

(** C5 at the failing input.  The first service answers 200 with a JSON
    body that is a list; the second reports the expected address.  The
    check does not fall through to the second service: [.get] on the list
    raises [AttributeError], which [except RequestException] does not
    catch, and [verify_proxy] raises instead of returning [True]. *)
Theorem C5_list_body_aborts_check :
  forall flag,
    verify_proxy config0 network_list_body flag = Raised
    /\ breaks network_list_body flag (py "https://api.ipify.org?format=json") = true
    /\ confirms config0 network_list_body (py "https://ifconfig.me/ip") = true.
Proof. intros []; vm_compute; auto. Qed.

(** C4.  When proxy verification returns [False], [initialize] returns
    [False] at once: its only side effect is the failure notification (or
    none, when the notifier could not be built), Chrome is never launched,
    no login is attempted, no browser manager or driver exists, monitoring
    is not active and the monitoring loop refuses to start. *)
Theorem C4_kill_switch (proxy_config : ProxyConfig) (w : Startup) :
  verify_proxy proxy_config (network w) (decode_error_is_request_exception w)
  = Returned false ->
  fst (fst (initialize proxy_config w)) = false
  /\ (snd (initialize proxy_config w) = [SendStatus StartupFailedProxy]
      \/ snd (initialize proxy_config w) = [])
  /\ List.filter is_launch (snd (initialize proxy_config w)) = []
  /\ List.filter is_login (snd (initialize proxy_config w)) = []
  /\ browser_manager (snd (fst (initialize proxy_config w))) = false
  /\ driver (snd (fst (initialize proxy_config w))) = false
  /\ monitoring_active (snd (fst (initialize proxy_config w))) = false
  /\ (forall check_interval max_errors world,
        run_monitoring_loop check_interval max_errors
          (snd (fst (initialize proxy_config w))) world
        = (snd (fst (initialize proxy_config w)), [], NotStarted)).
Proof.
  intros H. unfold initialize. rewrite H.
  destruct (notifier_built w); cbn; repeat split; auto.
Qed.

Lemma C4_witness :
  fst (fst (initialize config0 startup_mismatch)) = false
  /\ snd (initialize config0 startup_mismatch) = [SendStatus StartupFailedProxy].
Proof.
  assert (verify_proxy config0 (network startup_mismatch)
            (decode_error_is_request_exception startup_mismatch) = Returned false)
    as H by (vm_compute; reflexivity).
  destruct (C4_kill_switch config0 startup_mismatch H) as (Hr & _).
  split; [exact Hr|vm_compute; reflexivity].
Defined.

(** ** The monitoring loop *)

Lemma filter_send_bets (p : action -> bool) (bets : list BetInfo) :
  (forall b, p (SendBet b) = false) -> List.filter p (map SendBet bets) = [].
Proof.
  intros Hp. induction bets as [|b bets IH]; cbn [map List.filter]; [reflexivity|].
  now rewrite Hp.
Qed.

(** Case analysis on every test a goal branches on. *)
Ltac branches :=
  repeat (match goal with
          | |- context [if ?b then _ else _] => destruct b
          end; cbn [fst snd andb orb negb]).

(** The inner block never sends the terminal notification. *)
Lemma try_body_no_terminal (ci : Z) (l : Loop) (it : Iteration) :
  List.filter is_terminal (snd (fst (try_body ci l it))) = [].
Proof.
  unfold try_body.
  destruct (store l) as [st|], (scanned it) as [|current];
    try (branches; reflexivity).
  destruct (check_for_new_bets current st) as [new_bets st'].
  branches; rewrite ?List.filter_app;
    rewrite ?filter_send_bets by reflexivity; reflexivity.
Qed.

(** The block raises exactly when it raises early or the hourly division
    raises. *)
Lemma raises_cases (ci : Z) (l : Loop) (it : Iteration) :
  raises ci l it = raises_early l it || division_raises ci.
Proof.
  unfold raises, raises_early, division_raises, try_body.
  cbn [counted store check_count].
  destruct (store l) as [st|], (scanned it) as [|current];
    try (destruct (check_for_new_bets current st) as [new_bets st']);
    destruct ((check_count l + 1) mod 10 =? 0)%Z, (refresh_ok it),
      (ci =? 0)%Z, (3600 / ci =? 0)%Z; cbn [fst snd andb orb negb];
    try reflexivity; branches; reflexivity.
Qed.

(** The terminal notification is sent exactly by the iteration that ends
    the loop on the error budget. *)
Lemma iteration_terminal (ci me : Z) (l : Loop) (it : Iteration) :
  List.filter is_terminal (snd (fst (iteration ci me l it)))
  = match snd (iteration ci me l it) with
    | Some EndedOnErrors => [SendStatus StoppedTooManyErrors]
    | _ => []
    end.
Proof.
  unfold iteration. pose proof (try_body_no_terminal ci (counted l) it) as Ht.
  unfold counted in Ht.
  destruct (try_body ci _ it) as [[l1 acts] completed]. cbn [fst snd] in Ht.
  destruct completed; cbn [negb andb]; branches;
    rewrite ?List.filter_app, ?Ht; reflexivity.
Qed.

Lemma iterate_running_no_terminal (ci me : Z) (world : list Iteration) :
  forall l,
    snd (iterate ci me l world) = StillRunning ->
    List.filter is_terminal (snd (fst (iterate ci me l world))) = [].
Proof.
  induction world as [|it world IH]; intros l; cbn [iterate]; [reflexivity|].
  pose proof (iteration_terminal ci me l it) as Ht.
  destruct (iteration ci me l it) as [[l' acts] [e|]]; cbn [fst snd] in *.
  - intros ->. exact Ht.
  - specialize (IH l'). destruct (iterate ci me l' world) as [[l'' acts'] e'].
    cbn [fst snd] in *. intros He. rewrite List.filter_app, Ht, (IH He). reflexivity.
Qed.

Lemma iteration_ends (ci me : Z) (l : Loop) (it : Iteration) :
  snd (iteration ci me l it) <> Some StillRunning.
Proof.
  unfold iteration. destruct (try_body ci _ it) as [[l1 acts] completed].
  branches; discriminate.
Qed.

(** A run that is still going after [before] goes on with what follows. *)
Lemma iterate_app (ci me : Z) (before world : list Iteration) :
  forall l,
    snd (iterate ci me l before) = StillRunning ->
    iterate ci me l (before ++ world)
    = (fst (fst (iterate ci me (fst (fst (iterate ci me l before))) world)),
       snd (fst (iterate ci me l before))
       ++ snd (fst (iterate ci me (fst (fst (iterate ci me l before))) world)),
       snd (iterate ci me (fst (fst (iterate ci me l before))) world)).
Proof.
  induction before as [|it before IH]; intros l; cbn [iterate app fst snd].
  - intros _. now destruct (iterate ci me l world) as [[? ?] ?].
  - specialize (IH (fst (fst (iteration ci me l it)))).
    pose proof (iteration_ends ci me l it) as Hend.
    destruct (iteration ci me l it) as [[l' acts] [e|]]; cbn [fst snd] in *.
    + intros ->. congruence.
    + destruct (iterate ci me l' before) as [[l'' acts'] e'] eqn:Hb.
      cbn [fst snd] in *. intros He. rewrite (IH He), app_assoc. reflexivity.
Qed.

Lemma cleanup_quiet (m : Monitor) :
  List.filter is_status (cleanup m) = [] /\ List.filter is_terminal (cleanup m) = [].
Proof.
  unfold cleanup. destruct (bet_monitor m), (browser_manager m); split; reflexivity.
Qed.

(** A block that runs to its end has set the counter to zero. *)
Lemma try_body_completed (ci : Z) (l : Loop) (it : Iteration) :
  snd (try_body ci l it) = true ->
  consecutive_errors (fst (fst (try_body ci l it))) = 0%Z.
Proof.
  unfold try_body.
  destruct (store l) as [st|], (scanned it) as [|current];
    try (branches; (discriminate || reflexivity)).
  destruct (check_for_new_bets current st) as [new_bets st'].
  destruct ((check_count l mod 10 =? 0)%Z && negb (refresh_ok it)),
    (ci =? 0)%Z, (3600 / ci =? 0)%Z, (check_count l mod (3600 / ci) =? 0)%Z;
    cbn [fst snd]; (discriminate || reflexivity).
Qed.


(** What an iteration does whose scan succeeds while the hourly division
    raises: the counter, just reset, is incremented to one. *)
Lemma iteration_late (ci me : Z) (l : Loop) (it : Iteration) :
  raises_early l it = false -> division_raises ci = true ->
  exists st' acts,
    List.filter is_status acts = []
    /\ iteration ci me l it
       = let l' := {| store := Some st'; consecutive_errors := 1;
                      check_count := (check_count l + 1)%Z |} in
         if (1 >=? me)%Z
         then (l', acts ++ [SendStatus StoppedTooManyErrors], Some EndedOnErrors)
         else if sleep_raises ci || sleep_refused it
              then (l', (acts ++ [NavigateHistory]) ++ [SendStatus MonitorCrashed],
                    Some EndedByCrash)
              else if interrupted it
                   then (l', (acts ++ [NavigateHistory])
                             ++ [Sleep ci; SendStatus StoppedByUser], Some EndedByUser)
                   else (l', (acts ++ [NavigateHistory]) ++ [Sleep ci], None).
Proof.
  unfold raises_early, division_raises, iteration, try_body.
  cbn [counted store check_count consecutive_errors].
  destruct (store l) as [st|], (scanned it) as [|current];
    rewrite ?orb_true_r; try discriminate.
  rewrite orb_false_r. intros -> Hd.
  destruct (check_for_new_bets current st) as [new_bets st'].
  exists st'.
  exists ((if ((check_count l + 1) mod 10 =? 0)%Z then [Refresh; Sleep 5] else [])
          ++ match new_bets with
             | [] => []
             | _ :: _ => map SendBet new_bets ++ [SaveHistory st']
             end).
  split.
  - rewrite List.filter_app.
    destruct ((check_count l + 1) mod 10 =? 0)%Z, new_bets as [|b bs];
      rewrite ?List.filter_app; rewrite ?filter_send_bets by reflexivity; reflexivity.
  - destruct (ci =? 0)%Z; [reflexivity|]. cbn [orb] in Hd. rewrite Hd. reflexivity.
Qed.

(** Smooth iterations under a division that raises: the loop goes on, the
    counter is one after each of them, and no status is ever sent. *)
Lemma smooth_run (ci me : Z) (world : list Iteration) :
  division_raises ci = true -> sleep_raises ci = false -> (2 <= me)%Z ->
  Forall (fun it => smooth it = true) world ->
  forall l st,
    store l = Some st ->
    snd (iterate ci me l world) = StillRunning
    /\ List.filter is_status (snd (fst (iterate ci me l world))) = []
    /\ is_Some (store (fst (fst (iterate ci me l world))))
    /\ (world <> [] ->
        consecutive_errors (fst (fst (iterate ci me l world))) = 1%Z).
Proof.
  intros Hd Hci Hme. induction 1 as [|it world Hs _ IH]; intros l st Hst.
  - cbn [iterate fst snd List.filter].
    split; [reflexivity|]. split; [reflexivity|].
    split; [rewrite Hst; eauto|congruence].
  - unfold smooth in Hs. apply andb_prop in Hs as [Hs Hsc].
    apply andb_prop in Hs as [Hs Hint]. apply negb_true_iff in Hint.
    apply andb_prop in Hs as [Hre Href]. apply negb_true_iff in Href.
    assert (raises_early l it = false) as He.
    { unfold raises_early. rewrite Hre, Hst, andb_false_r.
      destruct (scanned it); [discriminate|reflexivity]. }
    destruct (iteration_late ci me l it He Hd) as (st' & acts & Hq & Hit).
    cbn [iterate]. rewrite Hit. cbv zeta.
    destruct (Z.geb_spec 1 me); [lia|]. rewrite Hci, Href, Hint. cbn [orb].
    destruct (IH {| store := Some st'; consecutive_errors := 1;
                    check_count := (check_count l + 1)%Z |} st' eq_refl)
      as (Hrun & Hquiet & Hsome & Hone).
    destruct (iterate ci me _ world) as [[l'' acts'] e'] eqn:Hrest.
    cbn [fst snd] in *. repeat split; try assumption.
    + rewrite !List.filter_app, Hq, Hquiet. reflexivity.
    + intros _. destruct world as [|it' world].
      * cbn in Hrest. injection Hrest as <- _ _. reflexivity.
      * apply Hone. discriminate.
Qed.

(** When the hourly division raises, every iteration raises. *)
Lemma all_raise_division (ci me : Z) (world : list Iteration) :
  division_raises ci = true -> forall l, all_raise ci me l world = true.
Proof.
  intros Hd. induction world as [|it world IH]; intros l; cbn [all_raise];
    [reflexivity|].
  now rewrite raises_cases, Hd, orb_true_r, IH.
Qed.

(** Two checks in a row are not both a tenth check. *)
Lemma tenth_then_not_next (c : Z) :
  (c mod 10 = 0 -> (c + 1) mod 10 = 0 -> False)%Z.
Proof. intros H1 H2. rewrite Z.add_mod, H1 in H2 by lia. discriminate H2. Qed.

(** While the scans return, a failure is counted on top of another one only
    when a refresh fails, which can happen in every tenth iteration only:
    the counter does not get beyond two. *)
Lemma iteration_budget (ci me : Z) (l : Loop) (it : Iteration) (st : BetStore) :
  (3 <= me)%Z ->
  store l = Some st -> scan_returns it = true ->
  (0 <= consecutive_errors l <= 2)%Z ->
  (consecutive_errors l = 2%Z -> (check_count l mod 10 = 0)%Z) ->
  snd (iteration ci me l it) <> Some EndedOnErrors
  /\ is_Some (store (fst (fst (iteration ci me l it))))
  /\ (0 <= consecutive_errors (fst (fst (iteration ci me l it))) <= 2)%Z
  /\ (consecutive_errors (fst (fst (iteration ci me l it))) = 2%Z ->
      (check_count (fst (fst (iteration ci me l it))) mod 10 = 0)%Z).
Proof.
  intros Hme Hst Hsc Hce Htwo. unfold scan_returns in Hsc.
  unfold iteration, try_body. cbn [store consecutive_errors check_count].
  rewrite Hst. destruct (scanned it) as [|current]; [discriminate|].
  destruct (check_for_new_bets current st) as [new_bets st'].
  destruct (Z.eqb_spec ((check_count l + 1) mod 10) 0) as [Hten|Hten];
    [assert (consecutive_errors l <> 2%Z) as Hlow
       by (intros E; apply (tenth_then_not_next (check_count l));
           [apply Htwo; exact E|exact Hten])|];
    destruct (refresh_ok it); cbn [andb negb];
    destruct (ci =? 0)%Z, (3600 / ci =? 0)%Z,
      ((check_count l + 1) mod (3600 / ci) =? 0)%Z;
    cbn [fst snd store consecutive_errors check_count negb andb];
    repeat match goal with
           | |- context [(?a >=? ?b)%Z] => destruct (Z.geb_spec a b)
           end;
    cbn [fst snd store consecutive_errors check_count negb andb];
    try (exfalso; lia);
    branches; cbn [fst snd store consecutive_errors check_count];
    (split; [discriminate|]); (split; [eauto|]);
    (split; [lia|intros H2; try (exfalso; lia); try exact Hten]).
Qed.

Lemma iterate_budget (ci me : Z) (world : list Iteration) :
  (3 <= me)%Z ->
  Forall (fun it => scan_returns it = true) world ->
  forall l st,
    store l = Some st ->
    (0 <= consecutive_errors l <= 2)%Z ->
    (consecutive_errors l = 2%Z -> (check_count l mod 10 = 0)%Z) ->
    snd (iterate ci me l world) <> EndedOnErrors
    /\ List.filter is_terminal (snd (fst (iterate ci me l world))) = []
    /\ (0 <= consecutive_errors (fst (fst (iterate ci me l world))) <= 2)%Z.
Proof.
  intros Hme. induction 1 as [|it world Hsc _ IH]; intros l st Hst Hce Htwo.
  - cbn [iterate fst snd]. split; [discriminate|]. split; [reflexivity|exact Hce].
  - cbn [iterate].
    destruct (iteration_budget ci me l it st Hme Hst Hsc Hce Htwo)
      as (Hend & [st' Hst'] & Hce' & Htwo').
    pose proof (iteration_terminal ci me l it) as Hterm.
    destruct (iteration ci me l it) as [[l' acts] [e|]]; cbn [fst snd] in *.
    + split; [congruence|]. split; [|exact Hce'].
      rewrite Hterm. destruct e; congruence.
    + destruct (IH l' st' Hst' Hce' Htwo') as (Hrun & Hquiet & Hbound).
      destruct (iterate ci me l' world) as [[l'' acts'] e']. cbn [fst snd] in *.
      split; [exact Hrun|]. split; [|exact Hbound].
      now rewrite List.filter_app, Hterm, Hquiet.
Qed.

(** C3.  The error budget of the loop is never used up, so failures in a
    row do not stop it.  Whatever the check interval, with [max_errors] of
    three or more (the program always runs with five) and a monitor that
    has been started, no run ends on the error budget and none sends the
    terminal notification: as the new-bet check itself never raises, an
    iteration fails either in the refresh, which is due in every tenth
    iteration only, or in the hourly computation, which comes after the
    counter was reset.  For a check interval of zero or above 3600 that
    computation divides by zero in every iteration: each iteration raises,
    five, six or any number of them in a row, and as long as the page
    refreshes, the sleep is taken and nobody interrupts, the loop is still
    running after them with its counter at one.  An iteration that does not
    raise leaves the counter at zero. *)
Theorem C3_error_budget (ci me : Z) (m : Monitor) (st : BetStore)
    (world : list Iteration) :
  (3 <= me)%Z ->
  monitoring_active m = true ->
  bet_monitor m = Some st ->
  Forall (fun it => scan_returns it = true) world ->
  snd (run_monitoring_loop ci me m world) <> EndedOnErrors
  /\ List.filter is_terminal (snd (fst (run_monitoring_loop ci me m world))) = []
  /\ ((ci = 0 \/ 3600 < ci)%Z ->
      all_raise ci me (loop_start m) world = true
      /\ ((ci <= sleep_limit)%Z ->
          Forall (fun it => smooth it = true) world ->
          snd (run_monitoring_loop ci me m world) = StillRunning
          /\ (world <> [] ->
              consecutive_errors (fst (fst (iterate ci me (loop_start m) world)))
              = 1%Z)))
  /\ (forall l it,
        raises ci l it = false ->
        consecutive_errors (fst (fst (iteration ci me l it))) = 0%Z).
Proof.
  intros Hme Hact Hst Hsc.
  destruct (iterate_budget ci me world Hme Hsc (loop_start m) st Hst)
    as (Hend & Hquiet & _).
  { cbn [loop_start consecutive_errors]. lia. }
  { cbn [loop_start consecutive_errors]. discriminate. }
  assert (forall e, snd (iterate ci me (loop_start m) world) = e ->
                    snd (run_monitoring_loop ci me m world) = e) as Hsame.
  { intros e He. unfold run_monitoring_loop. rewrite Hact. cbn [negb].
    fold (loop_start m).
    destruct (iterate ci me (loop_start m) world) as [[l acts] e0].
    cbn [snd] in He. subst e0. destruct e; reflexivity. }
  split; [|split; [|split]].
  - rewrite (Hsame _ eq_refl). exact Hend.
  - unfold run_monitoring_loop. rewrite Hact. cbn [negb]. fold (loop_start m).
    destruct (iterate ci me (loop_start m) world) as [[l acts] e].
    cbn [fst snd] in *.
    destruct e; cbn [fst snd]; rewrite ?List.filter_app, ?Hquiet;
      rewrite ?(proj2 (cleanup_quiet _)); reflexivity.
  - intros Hci.
    assert (division_raises ci = true) as Hd.
    { unfold division_raises. destruct Hci as [-> | Hci]; [reflexivity|].
      rewrite (Z.div_small 3600 ci) by lia. apply orb_true_r. }
    split; [apply all_raise_division; exact Hd|].
    intros Hlim Hsmooth.
    assert (sleep_raises ci = false) as Hsleep.
    { unfold sleep_raises. apply orb_false_intro.
      - apply Z.ltb_ge. lia.
      - apply Z.ltb_ge. exact Hlim. }
    destruct (smooth_run ci me world Hd Hsleep ltac:(lia) Hsmooth
                (loop_start m) st Hst) as (Hrun & _ & _ & Hone).
    split; [exact (Hsame _ Hrun)|exact Hone].
  - intros l it Hr. unfold raises in Hr. apply negb_false_iff in Hr.
    pose proof (try_body_completed ci (counted l) it Hr) as Hc.
    unfold iteration. unfold counted in Hr, Hc.
    destruct (try_body ci _ it) as [[l1 acts] completed].
    cbn [fst snd] in *. subst completed. cbn [negb andb]. branches; exact Hc.
Qed.

(** At a check interval of 7200 six iterations in a row each raise, and
    the loop with [max_errors = 5] is still running after them, without
    any terminal notification. *)
Lemma C3_witness :
  all_raise 7200 5 (loop_start active_monitor) (repeat quiet_scan 6) = true
  /\ snd (run_monitoring_loop 7200 5 active_monitor (repeat quiet_scan 6))
     = StillRunning
  /\ List.filter is_terminal
       (snd (fst (run_monitoring_loop 7200 5 active_monitor (repeat quiet_scan 6))))
     = [].
Proof.
  destruct (C3_error_budget 7200 5 active_monitor new_store (repeat quiet_scan 6))
    as (_ & Hquiet & Hfail & _).
  - lia.
  - reflexivity.
  - reflexivity.
  - repeat constructor.
  - destruct (Hfail ltac:(right; lia)) as (Hall & Hrun).
    destruct Hrun as (Hrun & _).
    + vm_compute. discriminate.
    + repeat constructor.
    + repeat split; assumption.
Defined.





(** * Further properties of the program *)

(** ** [verify_proxy] *)

Section ProxyOutcome.
Variable proxy_config : ProxyConfig.
Variable get : str -> probe.
Variable flag : bool.

Lemma breaks_not_confirms (service : str) :
  breaks get flag service = true -> confirms proxy_config get service = false.
Proof.
  unfold breaks, confirms. destruct (get service) as [|response]; [discriminate|].
  destruct (status_code response =? 200)%Z; [|discriminate].
  destruct (str_in (py "json") service); [|discriminate]. cbn [andb].
  destruct (resp_json response); (discriminate || reflexivity).
Qed.

Lemma verify_services_outcome (services : list str) :
  (verify_services proxy_config get flag services = Returned true <->
   exists pre s post, services = pre ++ s :: post
                      /\ confirms proxy_config get s = true
                      /\ Forall (passes proxy_config get flag) pre)
  /\ (verify_services proxy_config get flag services = Raised <->
      exists pre s post, services = pre ++ s :: post
                         /\ breaks get flag s = true
                         /\ Forall (passes proxy_config get flag) pre)
  /\ (verify_services proxy_config get flag services = Returned false <->
      Forall (passes proxy_config get flag) services).
Proof.
  induction services as [|service rest (IHt & IHr & IHf)].
  - cbn [verify_services]. repeat split; try discriminate; auto.
    + intros (pre & s & post & H & _). destruct pre; discriminate.
    + intros (pre & s & post & H & _). destruct pre; discriminate.
  - rewrite verify_services_step.
    destruct (confirms proxy_config get service) eqn:Hc;
      [|destruct (breaks get flag service) eqn:Hb].
    + split; [|split]; split; try discriminate.
      * intros _. exists [], service, rest. auto.
      * reflexivity.
      * intros (pre & s & post & H & Hs & Hp). destruct pre as [|x pre].
        -- injection H as <- _. rewrite (breaks_not_confirms _ Hs) in Hc. discriminate.
        -- injection H as <- _. apply Forall_cons in Hp as [[Hx _] _]. congruence.
      * intros H. apply Forall_cons in H as [[Hx _] _]. congruence.
    + split; [|split]; split; try discriminate.
      * intros (pre & s & post & H & Hs & Hp). destruct pre as [|x pre].
        -- injection H as <- _. congruence.
        -- injection H as <- _. apply Forall_cons in Hp as [[_ Hx] _]. congruence.
      * intros _. exists [], service, rest. auto.
      * reflexivity.
      * intros H. apply Forall_cons in H as [[_ Hx] _]. congruence.
    + assert (passes proxy_config get flag service) as Hp by (split; assumption).
      split; [|split].
      * rewrite IHt. split.
        -- intros (pre & s & post & -> & Hs & Hpre).
           exists (service :: pre), s, post. auto.
        -- intros (pre & s & post & H & Hs & Hpre). destruct pre as [|x pre].
           ++ injection H as <- _. congruence.
           ++ injection H as <- ->. apply Forall_cons in Hpre as [_ Hpre].
              exists pre, s, post. auto.
      * rewrite IHr. split.
        -- intros (pre & s & post & -> & Hs & Hpre).
           exists (service :: pre), s, post. auto.
        -- intros (pre & s & post & H & Hs & Hpre). destruct pre as [|x pre].
           ++ injection H as <- _. congruence.
           ++ injection H as <- ->. apply Forall_cons in Hpre as [_ Hpre].
              exists pre, s, post. auto.
      * rewrite IHf. split; [auto|]. intros H. now apply Forall_cons in H as [_ H].
Qed.

(** X1.  [verify_proxy] returns [True] exactly when some service confirms
    the expected address and every service before it in the list neither
    confirms nor breaks the check; it raises exactly when some service
    breaks the check and none before it confirms or breaks; it returns
    [False] exactly when no service confirms or breaks. *)
Theorem X1_verify_proxy_outcome :
  (verify_proxy proxy_config get flag = Returned true <->
   exists pre s post, ip_services = pre ++ s :: post
                      /\ confirms proxy_config get s = true
                      /\ Forall (passes proxy_config get flag) pre)
  /\ (verify_proxy proxy_config get flag = Raised <->
      exists pre s post, ip_services = pre ++ s :: post
                         /\ breaks get flag s = true
                         /\ Forall (passes proxy_config get flag) pre)
  /\ (verify_proxy proxy_config get flag = Returned false <->
      Forall (passes proxy_config get flag) ip_services).
Proof. exact (verify_services_outcome ip_services). Qed.
End ProxyOutcome.

(** ** [EnhancedBwinLogin.login] *)

(** X2.  [login] makes between one and three attempts, numbered from 1: it
    stops at the first attempt that succeeds and not before the third
    otherwise, returns what the last attempt made returned, and waits five
    seconds after every attempt but the last one made; attempts and waits
    alternate, and it does nothing else. *)
Theorem X2_login_attempts (ok : nat -> bool) :
  exists k : nat,
    (1 <= k <= 3)%nat
    /\ List.filter is_login (snd (login ok)) = map LoginAttempt (seq 1 k)
    /\ List.filter is_sleep (snd (login ok)) = repeat (Sleep 5) (k - 1)
    /\ (forall j, (1 <= j < k)%nat -> ok j = false)
    /\ fst (login ok) = ok k
    /\ (ok k = true \/ k = 3%nat)
    /\ snd (login ok)
       = flat_map (fun j => [LoginAttempt j; Sleep 5]) (seq 1 (k - 1))
         ++ [LoginAttempt k].
Proof.
  unfold login. cbn [login_from].
  destruct (ok 1%nat) eqn:H1; [exists 1%nat|destruct (ok 2%nat) eqn:H2;
    [exists 2%nat|destruct (ok 3%nat) eqn:H3; exists 3%nat]];
    cbn; rewrite ?H1, ?H2, ?H3; repeat split; try lia; auto;
    intros j Hj;
    (assert (j = 1%nat \/ j = 2%nat) as [-> | ->] by lia; assumption)
    || (assert (j = 1%nat) as -> by lia; assumption) || lia.
Qed.

(** ** [BwinBetMonitor.initialize] *)

(** Case analysis on everything [initialize] asks of its collaborators. *)
Ltac startup_cases cfg w :=
  unfold initialize, startup_exception;
  destruct (verify_proxy cfg (network w) (decode_error_is_request_exception w))
    as [|[]];
  destruct (notifier_built w), (chrome_launched w), (history_reached w);
  destruct (login (attempt_ok w)) as [[] attempts];
  cbn [negb fst snd cleanup bet_monitor browser_manager telegram_notifier
       monitoring_active app].

(** X3.  [initialize] returns [True] exactly when the proxy check returns
    [True], Chrome launches, the notifier can be built, a login attempt
    succeeds and the bet history is reached; monitoring is active
    afterwards exactly when it returned [True], and then the monitor holds
    an empty store. *)
Theorem X3_initialize_success (cfg : ProxyConfig) (w : Startup) :
  (fst (fst (initialize cfg w)) = true <->
   verify_proxy cfg (network w) (decode_error_is_request_exception w)
   = Returned true
   /\ chrome_launched w = true /\ notifier_built w = true
   /\ fst (login (attempt_ok w)) = true /\ history_reached w = true)
  /\ monitoring_active (snd (fst (initialize cfg w))) = fst (fst (initialize cfg w))
  /\ (monitoring_active (snd (fst (initialize cfg w))) = true ->
      bet_monitor (snd (fst (initialize cfg w))) = Some new_store).
Proof.
  startup_cases cfg w; repeat split; intros; try tauto; try discriminate;
    try (exfalso; intuition discriminate).
Qed.

(** X4.  A failed start goes unreported exactly when no notifier exists at
    the time of the failure: [initialize] sends no status notification at
    all if and only if the proxy check raises, or the notifier cannot be
    built, or the proxy is verified and Chrome fails to launch. *)
Theorem X4_silent_startup_failure (cfg : ProxyConfig) (w : Startup) :
  List.filter is_status (snd (initialize cfg w)) = [] <->
  verify_proxy cfg (network w) (decode_error_is_request_exception w) = Raised
  \/ notifier_built w = false
  \/ (verify_proxy cfg (network w) (decode_error_is_request_exception w)
      = Returned true /\ chrome_launched w = false).
Proof.
  startup_cases cfg w; cbn [List.filter is_status app];
    rewrite ?List.filter_app; cbn [List.filter is_status app];
    split; intros H; try discriminate; try tauto;
    try (exfalso; intuition discriminate).
Qed.

(** [login] only attempts and waits, and it attempts at least once. *)
Lemma login_actions (ok : nat -> bool) :
  Forall (fun a => is_login a || is_sleep a = true) (snd (login ok))
  /\ List.filter is_login (snd (login ok)) <> []
  /\ ~ In NavigateHistory (snd (login ok))
  /\ ~ In LaunchChrome (snd (login ok)).
Proof.
  unfold login. cbn [login_from].
  destruct (ok 1%nat); [|destruct (ok 2%nat); [|destruct (ok 3%nat)]];
    cbn; repeat split; repeat constructor; try discriminate;
    intros H; repeat (destruct H as [H|H]; try discriminate); exact H.
Qed.

(** X5.  The stages of [initialize] are entered in order, each exactly
    when all earlier ones succeeded: Chrome is launched iff the proxy check
    returned [True]; a login is attempted iff moreover Chrome launched and
    the notifier was built; the bet history is navigated to iff moreover a
    login attempt succeeded. *)
Theorem X5_startup_stages (cfg : ProxyConfig) (w : Startup) :
  (In LaunchChrome (snd (initialize cfg w)) <->
   verify_proxy cfg (network w) (decode_error_is_request_exception w)
   = Returned true)
  /\ (List.filter is_login (snd (initialize cfg w)) <> [] <->
      verify_proxy cfg (network w) (decode_error_is_request_exception w)
      = Returned true
      /\ chrome_launched w = true /\ notifier_built w = true)
  /\ (In NavigateHistory (snd (initialize cfg w)) <->
      verify_proxy cfg (network w) (decode_error_is_request_exception w)
      = Returned true
      /\ chrome_launched w = true /\ notifier_built w = true
      /\ fst (login (attempt_ok w)) = true).
Proof.
  destruct (login_actions (attempt_ok w)) as (_ & Hl & Hn & Hc).
  startup_cases cfg w; cbn [fst snd] in *;
    cbn [List.filter is_login In];
    rewrite ?List.filter_app, ?in_app_iff; cbn [List.filter is_login In];
    (split; [|split]); split; intros H;
    try (repeat split; reflexivity); try discriminate; try tauto;
    try (exfalso; intuition discriminate);
    try (intros Hnil; apply app_eq_nil in Hnil as [Hnil _]; tauto).
Qed.

(** X6.  Whenever [initialize] fails after the proxy check returned
    [True], the last thing it does is to clean up the browser. *)
Theorem X6_failed_startup_cleans_up (cfg : ProxyConfig) (w : Startup) :
  verify_proxy cfg (network w) (decode_error_is_request_exception w)
  = Returned true ->
  fst (fst (initialize cfg w)) = false ->
  last (snd (initialize cfg w)) = Some BrowserCleanup.
Proof.
  intros Hv. unfold initialize, startup_exception. rewrite Hv.
  destruct (notifier_built w), (chrome_launched w), (history_reached w);
  destruct (login (attempt_ok w)) as [[] attempts];
  cbn [negb fst snd cleanup bet_monitor browser_manager telegram_notifier app];
    intros H; try discriminate; try reflexivity;
    rewrite ?app_comm_cons, last_app; reflexivity.
Qed.

Lemma X6_witness :
  last (snd (initialize config0 startup_login_fails)) = Some BrowserCleanup.
Proof.
  apply X6_failed_startup_cleans_up; vm_compute; reflexivity.
Defined.


(** ** Identifiers *)

Lemma bytes_of_inj (s1 s2 : string) : bytes_of s1 = bytes_of s2 -> s1 = s2.
Proof.
  revert s2. induction s1 as [|a s1 IH]; intros [|b s2]; cbn [bytes_of];
    try discriminate; [reflexivity|].
  intros H. injection H as Ha Hs. f_equal; [|now apply IH].
  rewrite <- (ascii_N_embedding a), <- (ascii_N_embedding b). now f_equal.
Qed.

(** Two integers print alike only if they are equal. *)
Lemma str_of_Z_inj (z1 z2 : Z) : str_of_Z z1 = str_of_Z z2 -> z1 = z2.
Proof.
  unfold str_of_Z. intros H. apply bytes_of_inj in H.
  apply DecimalZ.to_int_inj.
  assert (forall z, NilZero.int_of_string (NilZero.string_of_int (Z.to_int z))
                    = Some (Z.to_int z)) as Hp.
  { intros z. apply NilZero.isi; destruct z as [|p|p]; cbn; try discriminate;
      intros [= Hn]; exact (DecimalPos.Unsigned.to_uint_nonnil p Hn). }
  pose proof (Hp z1) as H1. rewrite H, Hp in H1. congruence.
Qed.

Lemma digits_no_underscore (d : Decimal.uint) :
  ~ In 95 (bytes_of (NilEmpty.string_of_uint d)).
Proof.
  induction d; cbn; [tauto|..]; intros [H|H]; try discriminate; tauto.
Qed.

(** The decimal rendering of an integer has no underscore. *)
Lemma str_of_Z_no_underscore (z : Z) : ~ In 95 (str_of_Z z).
Proof.
  unfold str_of_Z, NilZero.string_of_int, NilZero.string_of_uint.
  destruct (Z.to_int z) as [d|d]; destruct d;
    try (cbn; intros H; repeat (destruct H as [H|H]; try discriminate); exact H);
    cbn [bytes_of In]; intros H;
    repeat (destruct H as [H|H]; try discriminate);
    try (revert H; apply digits_no_underscore).
Qed.

Lemma split_at_underscore (t1 t2 i1 i2 : str) :
  ~ In 95 t1 -> ~ In 95 t2 ->
  t1 ++ 95 :: i1 = t2 ++ 95 :: i2 -> t1 = t2 /\ i1 = i2.
Proof.
  revert t2. induction t1 as [|c t1 IH]; intros [|c2 t2] H1 H2 H; cbn in *.
  - injection H as ->. auto.
  - injection H as <- _. tauto.
  - injection H as -> _. tauto.
  - injection H as -> H. destruct (IH t2) as [-> ->]; auto.
Qed.

(** Made-up identifiers are equal only for the same second and index. *)
Lemma synthesized_inj (prefix : str) (t1 t2 : Z) (i1 i2 : nat) :
  synthesized prefix t1 i1 = synthesized prefix t2 i2 -> t1 = t2 /\ i1 = i2.
Proof.
  unfold synthesized. intros H. apply app_inv_head in H.
  change (py "_") with [95] in H. cbn [app] in H.
  apply split_at_underscore in H as [Ht Hi]; try apply str_of_Z_no_underscore.
  split; [now apply str_of_Z_inj|].
  unfold str_of_nat in Hi. apply str_of_Z_inj in Hi. lia.
Qed.

Lemma row_identifier (clk : Clock) (row : WebElement) (i : nat) (b : BetInfo) :
  _extract_bet_from_row clk row i = Some b ->
  betslip_id b = synthesized (py "row_bet_") (epoch clk) i.
Proof.
  unfold _extract_bet_from_row. destruct (el_cells row) as [|cells]; [discriminate|].
  destruct (length cells <? 3)%nat; [discriminate|].
  destruct (cell_texts cells); [discriminate|]. now intros [= <-].
Qed.

Lemma container_identifier (clk : Clock) (e : WebElement) (i : nat) (b : BetInfo) :
  _extract_bet_info clk e i = Some b ->
  betslip_id b = match el_id e with
                 | Returned (Some (c :: r)) => c :: r
                 | _ => synthesized (py "bet_") (epoch clk) i
                 end.
Proof.
  unfold _extract_bet_info. destruct (el_text e) as [|raw]; [discriminate|].
  destruct (length (strip raw) <? 10)%nat; [discriminate|].
  destruct (el_id e) as [|[[|c r]|]]; [discriminate|..]; now intros [= <-].
Qed.

(** Records whose identifiers are made up from their index are pairwise
    distinct, whatever the clock shows. *)
Lemma extract_each_distinct (prefix : str) (t : nat -> Z)
    (f : nat -> WebElement -> option BetInfo) (P : WebElement -> Prop) :
  (forall i e b, P e -> f i e = Some b ->
                 betslip_id b = synthesized prefix (t i) i) ->
  forall els i,
    Forall P els ->
    (forall b, b ∈ extract_each f i els ->
               exists j, (i <= j)%nat /\ betslip_id b = synthesized prefix (t j) j)
    /\ NoDup (ids (extract_each f i els)).
Proof.
  intros Hf. induction els as [|e els IH]; intros i HP; cbn [extract_each].
  - split; [intros b Hb; inversion Hb|constructor].
  - apply Forall_cons in HP as [He HP]. destruct (IH (S i) HP) as [Hin Hnd].
    destruct (f i e) as [b0|] eqn:Hfe.
    + split.
      * intros b Hb. apply elem_of_cons in Hb as [->|Hb].
        -- exists i. split; [lia|]. now apply (Hf i e).
        -- destruct (Hin b Hb) as (j & Hj & Hid). exists j. split; [lia|exact Hid].
      * cbn. apply NoDup_cons. split; [|exact Hnd].
        intros Hid. apply list_elem_of_fmap in Hid as (b & Heq & Hb).
        destruct (Hin b Hb) as (j & Hj & Hid).
        rewrite (Hf i e b0 He Hfe), Hid in Heq.
        apply synthesized_inj in Heq. lia.
    + split; [|exact Hnd]. intros b Hb.
      destruct (Hin b Hb) as (j & Hj & Hid). exists j. split; [lia|exact Hid].
Qed.

Lemma scan_rows_distinct (clock : nat -> Clock) (rows : list WebElement) :
  NoDup (ids (scan_rows clock rows)).
Proof.
  unfold scan_rows.
  apply (extract_each_distinct (py "row_bet_") (fun i => epoch (clock i)) _
           (fun _ => True)).
  - intros i e b _. apply row_identifier.
  - apply Forall_forall. auto.
Qed.

(** X7.  Within one scan the records of the table rows have pairwise
    distinct identifiers, whatever the clock reads, and so have the records
    of the containers when no container brings an [id] attribute of its
    own. *)
Theorem X7_scan_identifiers_distinct :
  (forall clock_rows table_rows, NoDup (ids (scan_rows clock_rows table_rows)))
  /\ (forall set_order clock_cards bet_elements,
        Forall (fun e => forall c r, el_id e <> Returned (Some (c :: r)))
               (set_order bet_elements) ->
        NoDup (ids (scan_cards set_order clock_cards bet_elements))).
Proof.
  split; [exact scan_rows_distinct|].
  - intros so clock els HP. unfold scan_cards.
    apply (extract_each_distinct (py "bet_") (fun i => epoch (clock i)) _
             (fun e => forall c r, el_id e <> Returned (Some (c :: r)))); [|exact HP].
    intros i e b He Hb. rewrite (container_identifier _ _ _ _ Hb).
    destruct (el_id e) as [|[[|c r]|]]; try reflexivity. now destruct (He c r).
Qed.

(** The check spelled out on the first record. *)
Lemma check_cons (bet : BetInfo) (rest : list BetInfo) (st : BetStore) :
  check_for_new_bets (bet :: rest) st
  = if decide (betslip_id bet ∈ known_bets st) then check_for_new_bets rest st
    else
      (bet :: fst (check_for_new_bets rest
                     {| known_bets := {[betslip_id bet]} ∪ known_bets st;
                        bet_history := bet_history st ++ [bet] |}),
       snd (check_for_new_bets rest
              {| known_bets := {[betslip_id bet]} ∪ known_bets st;
                 bet_history := bet_history st ++ [bet] |})).
Proof.
  unfold check_for_new_bets. cbn [fold_left consider].
  destruct (decide (betslip_id bet ∈ known_bets st)); [reflexivity|].
  now rewrite fold_consider_from.
Qed.

(** A scan of distinct, unknown identifiers is accepted as a whole. *)
Lemma check_all_new (current : list BetInfo) :
  forall st,
    NoDup (ids current) ->
    (forall b, b ∈ current -> betslip_id b ∉ known_bets st) ->
    fst (check_for_new_bets current st) = current.
Proof.
  induction current as [|bet current IH]; intros st Hnd Hnew; [reflexivity|].
  rewrite check_cons. cbn in Hnd. apply NoDup_cons in Hnd as [Hbet Hnd].
  destruct (decide (betslip_id bet ∈ known_bets st)) as [Hk|_].
  - exfalso. apply (Hnew bet); [left|exact Hk].
  - cbn [fst]. f_equal. apply IH; [exact Hnd|]. cbn [known_bets].
    intros b Hb Hin. apply elem_of_union in Hin as [Hin|Hin].
    + apply elem_of_singleton in Hin. apply Hbet.
      rewrite <- Hin. unfold ids. apply list_elem_of_fmap. eauto.
    + apply (Hnew b); [now right|exact Hin].
Qed.

Lemma scan_rows_identifiers (clock : nat -> Clock) (rows : list WebElement)
    (b : BetInfo) :
  b ∈ scan_rows clock rows ->
  exists j, betslip_id b = synthesized (py "row_bet_") (epoch (clock j)) j.
Proof.
  intros Hb. unfold scan_rows in Hb.
  destruct (extract_each_distinct (py "row_bet_") (fun i => epoch (clock i))
              (fun i row => _extract_bet_from_row (clock i) row i) (fun _ => True))
    with (els := rows) (i := 0%nat) as [Hin _].
  - intros i e b' _. apply row_identifier.
  - apply Forall_forall. auto.
  - destruct (Hin b Hb) as (j & _ & Hid). eauto.
Qed.

(** X8.  Identifiers made up for table rows do not survive a later scan:
    when the same rows are scanned again at clock readings that differ in
    the second from those of the first scan, the new-bet check accepts
    every record of the second scan as new. *)
Theorem X8_rows_accepted_again (clock_first clock_again : nat -> Clock)
    (table_rows : list WebElement) :
  (forall i j, epoch (clock_first i) <> epoch (clock_again j)) ->
  fst (check_for_new_bets (scan_rows clock_again table_rows)
         (snd (check_for_new_bets (scan_rows clock_first table_rows) new_store)))
  = scan_rows clock_again table_rows.
Proof.
  intros Hclock. apply check_all_new.
  - apply scan_rows_distinct.
  - intros b Hb Hk.
    destruct (check_for_new_bets_spec (scan_rows clock_first table_rows) new_store)
      as (extra & Heq & _ & Hsel & _).
    rewrite Heq in Hk. cbn [snd known_bets new_store] in Hk.
    apply elem_of_union in Hk as [Hk|Hk]; [|inversion Hk].
    apply elem_of_list_to_set, list_elem_of_fmap in Hk as (b1 & Hid & Hb1).
    destruct (Hsel b1 Hb1) as [Hb1' _].
    destruct (scan_rows_identifiers _ _ _ Hb) as (j & Hj).
    destruct (scan_rows_identifiers _ _ _ Hb1') as (i & Hi).
    rewrite Hj, Hi in Hid. apply synthesized_inj in Hid as [Ht _].
    apply (Hclock i j). now symmetry.
Qed.

Lemma X8_witness :
  fst (check_for_new_bets (scan_rows (fun _ => clock1) [row_a])
         (snd (check_for_new_bets (scan_rows (fun _ => clock0) [row_a]) new_store)))
  = scan_rows (fun _ => clock1) [row_a].
Proof.
  apply (X8_rows_accepted_again (fun _ => clock0) (fun _ => clock1) [row_a]).
  intros _ _. cbn. discriminate.
Defined.

(** X9.  A container that brings a non-empty [id] attribute keeps it as
    identifier at every clock reading and index, so once one of its records
    went through the new-bet check, a record from any later scan of it is
    not accepted. *)
Theorem X9_native_identifier_stable (e : WebElement) (c : N) (r : str)
    (clk1 clk2 : Clock) (i1 i2 : nat) (b1 b2 : BetInfo) (st : BetStore) :
  el_id e = Returned (Some (c :: r)) ->
  _extract_bet_info clk1 e i1 = Some b1 ->
  _extract_bet_info clk2 e i2 = Some b2 ->
  betslip_id b1 = c :: r /\ betslip_id b2 = c :: r
  /\ fst (check_for_new_bets [b2] (snd (check_for_new_bets [b1] st))) = [].
Proof.
  intros Hid H1 H2.
  apply container_identifier in H1, H2. rewrite Hid in H1, H2.
  repeat split; try assumption.
  rewrite (check_all_known [b2]); [reflexivity|].
  intros b Hb. apply list_elem_of_singleton in Hb as ->.
  destruct (check_for_new_bets_spec [b1] st) as (extra & -> & _ & _ & Hall).
  cbn [snd known_bets]. rewrite H2, <- H1. apply Hall. left.
Qed.

Lemma X9_witness :
  exists b1 b2,
    _extract_bet_info clock0 scenario_element 0 = Some b1
    /\ _extract_bet_info clock1 scenario_element 3 = Some b2
    /\ fst (check_for_new_bets [b2] (snd (check_for_new_bets [b1] new_store))) = [].
Proof.
  eexists. eexists. split; [vm_compute; reflexivity|].
  split; [vm_compute; reflexivity|].
  refine (proj2 (proj2 (X9_native_identifier_stable scenario_element 115
                          (py "lip-1") clock0 clock1 0 3 _ _ new_store _ _ _)));
    vm_compute; reflexivity.
Defined.

(** X10.  A container without an [id] attribute of its own gets an
    identifier made of the clock second and its index in the scan; when
    either differs between two scans of it, the two records have different
    identifiers and the new-bet check accepts the second one as new. *)
Theorem X10_anonymous_container_accepted_again (e : WebElement)
    (clk1 clk2 : Clock) (i1 i2 : nat) (b1 b2 : BetInfo) :
  no_native_id e ->
  _extract_bet_info clk1 e i1 = Some b1 ->
  _extract_bet_info clk2 e i2 = Some b2 ->
  epoch clk1 <> epoch clk2 \/ i1 <> i2 ->
  betslip_id b1 = synthesized (py "bet_") (epoch clk1) i1
  /\ betslip_id b1 <> betslip_id b2
  /\ fst (check_for_new_bets [b2] (snd (check_for_new_bets [b1] new_store))) = [b2].
Proof.
  intros Hno H1 H2 Hd. apply container_identifier in H1, H2.
  assert (betslip_id b1 = synthesized (py "bet_") (epoch clk1) i1
          /\ betslip_id b2 = synthesized (py "bet_") (epoch clk2) i2) as [E1 E2].
  { destruct Hno as [Hno|Hno]; rewrite Hno in H1, H2; auto. }
  assert (betslip_id b1 <> betslip_id b2) as Hne.
  { rewrite E1, E2. intros H. apply synthesized_inj in H. lia. }
  repeat split; try assumption.
  apply check_all_new.
  - cbn. apply NoDup_singleton.
  - intros b Hb Hk. apply list_elem_of_singleton in Hb as ->.
    destruct (check_for_new_bets_spec [b1] new_store)
      as (extra & Heq & _ & Hsel & _).
    rewrite Heq in Hk. cbn [snd known_bets new_store] in Hk.
    apply elem_of_union in Hk as [Hk|Hk]; [|inversion Hk].
    apply elem_of_list_to_set, list_elem_of_fmap in Hk as (b & Hid & Hb).
    destruct (Hsel b Hb) as [Hb' _]. apply list_elem_of_singleton in Hb' as ->.
    congruence.
Qed.

Lemma X10_witness :
  exists b1 b2,
    _extract_bet_info clock0 anonymous_element 0 = Some b1
    /\ _extract_bet_info clock0 anonymous_element 1 = Some b2
    /\ fst (check_for_new_bets [b2] (snd (check_for_new_bets [b1] new_store))) = [b2].
Proof.
  eexists. eexists. split; [vm_compute; reflexivity|].
  split; [vm_compute; reflexivity|].
  refine (proj2 (proj2 (X10_anonymous_container_accepted_again anonymous_element
                          clock0 clock0 0 1 _ _ _ _ _ _)));
    try (vm_compute; reflexivity).
  - left. reflexivity.
  - right. discriminate.
Defined.

Lemma check_sublist (current : list BetInfo) :
  forall st, fst (check_for_new_bets current st) `sublist_of` current.
Proof.
  induction current as [|bet current IH]; intros st; [constructor|].
  rewrite check_cons. destruct (decide (betslip_id bet ∈ known_bets st)).
  - apply sublist_cons, IH.
  - cbn [fst]. apply sublist_skip, IH.
Qed.

(** X11.  What a new-bet check accepts: the accepted records are a
    selection of the presented ones in their order, with pairwise distinct
    identifiers; an identifier is accepted exactly when it is presented and
    was not in the seen-set; and afterwards the seen-set is the old set
    together with all presented identifiers. *)
Theorem X11_accepted_records (current : list BetInfo) (st : BetStore) :
  fst (check_for_new_bets current st) `sublist_of` current
  /\ NoDup (ids (fst (check_for_new_bets current st)))
  /\ (forall id, id ∈ ids (fst (check_for_new_bets current st)) <->
                 id ∈ ids current /\ id ∉ known_bets st)
  /\ known_bets (snd (check_for_new_bets current st))
     = known_bets st ∪ list_to_set (ids current).
Proof.
  split; [apply check_sublist|].
  destruct (check_for_new_bets_spec current st) as (extra & -> & Hnd & Hsel & Hall).
  cbn [fst snd known_bets]. split; [exact Hnd|].
  assert (forall id, id ∈ ids extra <-> id ∈ ids current /\ id ∉ known_bets st) as Hiff.
  { intros id. unfold ids. rewrite !list_elem_of_fmap. split.
    - intros (b & -> & Hb). destruct (Hsel b Hb). eauto.
    - intros [(b & -> & Hb) Hk]. specialize (Hall b Hb).
      apply elem_of_union in Hall as [Hall|Hall]; [|tauto].
      apply elem_of_list_to_set, list_elem_of_fmap in Hall. exact Hall. }
  split; [exact Hiff|].
  apply set_eq. intros id. rewrite !elem_of_union, !elem_of_list_to_set, Hiff.
  destruct (decide (id ∈ known_bets st)); tauto.
Qed.

(** X12.  When the first line with a currency symbol also contains a
    decimal number with two places and no earlier line contains one, the
    odds field is that stake line: stake and odds come out equal. *)
Theorem X12_stake_line_taken_for_odds (before after : list str) (line : str) :
  Forall (fun l => stake_line l = false /\ re_search_odds l = false) before ->
  stake_line line = true ->
  re_search_odds line = true ->
  _extract_stake (before ++ line :: after) = line
  /\ _extract_odds (before ++ line :: after) = line.
Proof.
  intros Hb Hs Ho. unfold _extract_stake, _extract_odds.
  assert (find stake_line (before ++ line :: after) = Some line) as ->.
  { apply find_first. exists before, after. repeat split; try assumption.
    eapply Forall_impl; [exact Hb|]. cbn. tauto. }
  assert (find re_search_odds (before ++ line :: after) = Some line) as ->.
  { apply find_first. exists before, after. repeat split; try assumption.
    eapply Forall_impl; [exact Hb|]. cbn. tauto. }
  split; reflexivity.
Qed.

Lemma X12_witness :
  _extract_stake (split_lines scenario_text) = py "€25.00 stake"
  /\ _extract_odds (split_lines scenario_text) = py "€25.00 stake".
Proof.
  apply (X12_stake_line_taken_for_odds
           [py "Arsenal vs Chelsea"; py "1X2 Home"]
           [py "2.40"; py "Possible win €60.00"] (py "€25.00 stake")).
  - repeat constructor.
  - vm_compute. reflexivity.
  - vm_compute. reflexivity.
Defined.

(** ** The monitoring loop, continued *)

Lemma sent_bets_app (a b : list action) :
  sent_bets (a ++ b) = sent_bets a ++ sent_bets b.
Proof.
  induction a as [|x a IH]; [reflexivity|].
  destruct x; cbn [app sent_bets]; rewrite IH; reflexivity.
Qed.

Lemma sent_bets_map (bets : list BetInfo) : sent_bets (map SendBet bets) = bets.
Proof. induction bets as [|b bets IH]; cbn; [reflexivity|now rewrite IH]. Qed.

(** The inner block changes the store by a new-bet check or not at all,
    and the records it notifies are the records it appends. *)
Lemma try_body_store (ci : Z) (l : Loop) (it : Iteration) (st : BetStore) :
  store l = Some st -> reachable st ->
  exists st',
    store (fst (fst (try_body ci l it))) = Some st'
    /\ reachable st'
    /\ bet_history st' = bet_history st ++ sent_bets (snd (fst (try_body ci l it))).
Proof.
  intros Hst Hr. unfold try_body. rewrite Hst.
  destruct ((check_count l mod 10 =? 0)%Z && negb (refresh_ok it)).
  { exists st. cbn. rewrite Hst, app_nil_r. auto. }
  destruct (scanned it) as [|current].
  { exists st. cbn [fst snd]. rewrite Hst. split; [reflexivity|]. split; [exact Hr|].
    destruct (check_count l mod 10 =? 0)%Z; cbn; now rewrite app_nil_r. }
  pose proof (reach_check st current Hr) as Hr'.
  pose proof (proj2 (check_grows current st)) as Hh.
  destruct (check_for_new_bets current st) as [new_bets st']. cbn [fst snd] in *.
  exists st'.
  assert (sent_bets match new_bets with
                    | [] => []
                    | _ :: _ => map SendBet new_bets ++ [SaveHistory st']
                    end = new_bets) as Hsent.
  { destruct new_bets as [|b bs]; [reflexivity|].
    rewrite sent_bets_app, sent_bets_map. cbn [sent_bets]. apply app_nil_r. }
  destruct (ci =? 0)%Z, (3600 / ci =? 0)%Z, (check_count l mod (3600 / ci) =? 0)%Z;
    cbn [fst snd store]; (split; [reflexivity|]); (split; [exact Hr'|]);
    rewrite ?sent_bets_app, Hsent, Hh;
    destruct (check_count l mod 10 =? 0)%Z; cbn; rewrite ?app_nil_r; reflexivity.
Qed.

Lemma iteration_store (ci me : Z) (l : Loop) (it : Iteration) (st : BetStore) :
  store l = Some st -> reachable st ->
  exists st',
    store (fst (fst (iteration ci me l it))) = Some st'
    /\ reachable st'
    /\ bet_history st'
       = bet_history st ++ sent_bets (snd (fst (iteration ci me l it))).
Proof.
  intros Hst Hr.
  destruct (try_body_store ci (counted l) it st Hst Hr) as (st' & Hs & Hr' & Hh).
  unfold iteration. unfold counted in Hs, Hh.
  destruct (try_body ci _ it) as [[l1 acts] completed]. cbn [fst snd] in *.
  exists st'.
  destruct completed; cbn [negb andb store]; rewrite ?Hs; branches; cbn [store];
    (split; [first [exact Hs|reflexivity]|]); (split; [exact Hr'|]);
    rewrite ?sent_bets_app; cbn [sent_bets]; rewrite ?app_nil_r; exact Hh.
Qed.

Lemma iterate_store (ci me : Z) (world : list Iteration) :
  forall l st,
    store l = Some st -> reachable st ->
    exists st',
      store (fst (fst (iterate ci me l world))) = Some st'
      /\ reachable st'
      /\ bet_history st'
         = bet_history st ++ sent_bets (snd (fst (iterate ci me l world))).
Proof.
  induction world as [|it world IH]; intros l st Hst Hr; cbn [iterate].
  - exists st. cbn. rewrite app_nil_r. auto.
  - destruct (iteration_store ci me l it st Hst Hr) as (st1 & Hs1 & Hr1 & Hh1).
    destruct (iteration ci me l it) as [[l1 acts] [e|]]; cbn [fst snd] in *.
    + exists st1. auto.
    + destruct (IH l1 st1 Hs1 Hr1) as (st2 & Hs2 & Hr2 & Hh2).
      destruct (iterate ci me l1 world) as [[l2 acts2] e2]. cbn [fst snd] in *.
      exists st2. split; [exact Hs2|]. split; [exact Hr2|].
      now rewrite sent_bets_app, app_assoc, <- Hh1.
Qed.

Lemma sent_bets_cleanup (m : Monitor) : sent_bets (cleanup m) = [].
Proof. unfold cleanup. destruct (bet_monitor m), (browser_manager m); reflexivity. Qed.

(** X13.  Over a whole run of the monitoring loop that starts from a
    store a run can be in, every record notified is appended to the
    history and every record appended is notified, in the same order; no
    two notifications of the run carry the same identifier, and none
    carries an identifier that was in the seen-set at the start; and the
    seen-set and the history still agree in size at the end. *)
Theorem X13_one_notification_per_identifier (ci me : Z) (m : Monitor)
    (world : list Iteration) (st : BetStore) :
  monitoring_active m = true ->
  bet_monitor m = Some st ->
  reachable st ->
  exists st',
    bet_monitor (fst (fst (run_monitoring_loop ci me m world))) = Some st'
    /\ bet_history st'
       = bet_history st ++ sent_bets (snd (fst (run_monitoring_loop ci me m world)))
    /\ NoDup (ids (sent_bets (snd (fst (run_monitoring_loop ci me m world)))))
    /\ (forall b, b ∈ sent_bets (snd (fst (run_monitoring_loop ci me m world))) ->
                  betslip_id b ∉ known_bets st)
    /\ size (known_bets st') = length (bet_history st').
Proof.
  intros Hact Hst Hr. unfold run_monitoring_loop. rewrite Hact. cbn [negb].
  destruct (iterate_store ci me world
              {| store := bet_monitor m; consecutive_errors := 0; check_count := 0 |}
              st Hst Hr) as (st' & Hs & Hr' & Hh).
  destruct (iterate ci me _ world) as [[l acts] e]. cbn [fst snd] in *.
  exists st'.
  assert (sent_bets (snd (fst
            match e with
            | StillRunning =>
                ({| browser_manager := browser_manager m; driver := driver m;
                    bet_monitor := store l;
                    telegram_notifier := telegram_notifier m;
                    monitoring_active := true |}, acts, StillRunning)
            | _ =>
                ({| browser_manager := browser_manager m; driver := driver m;
                    bet_monitor := store l;
                    telegram_notifier := telegram_notifier m;
                    monitoring_active := false |},
                 acts ++ cleanup
                   {| browser_manager := browser_manager m; driver := driver m;
                      bet_monitor := store l;
                      telegram_notifier := telegram_notifier m;
                      monitoring_active := false |}, e)
            end)) = sent_bets acts) as Hsent.
  { destruct e; cbn [fst snd]; rewrite ?sent_bets_app, ?sent_bets_cleanup, ?app_nil_r;
      reflexivity. }
  rewrite Hsent.
  destruct (reachable_inv st Hr) as [Hk _].
  destruct (reachable_inv st' Hr') as [Hk' Hn'].
  rewrite Hh in Hn'. unfold ids in Hn'. rewrite map_app in Hn'.
  apply NoDup_app in Hn' as (Hn0 & Hdis & Hnd).
  split; [destruct e; exact Hs|]. split; [exact Hh|]. split; [exact Hnd|]. split.
  - intros b Hb Hin. rewrite Hk in Hin. apply elem_of_list_to_set in Hin.
    apply (Hdis _ Hin). apply list_elem_of_fmap. eauto.
  - rewrite Hk', size_list_to_set.
    + unfold ids. apply length_map.
    + rewrite Hh. unfold ids. rewrite map_app. apply NoDup_app. auto.
Qed.

Lemma X13_witness :
  exists st',
    bet_monitor (fst (fst (run_monitoring_loop 30 5 active_monitor
       [{| refresh_ok := true; scanned := Returned [bet_a; bet_b];
           sleep_refused := false; interrupted := false |};
        {| refresh_ok := true; scanned := Returned [bet_b; bet_a];
           sleep_refused := false; interrupted := true |}]))) = Some st'
    /\ length (bet_history st') = 2%nat.
Proof.
  destruct (X13_one_notification_per_identifier 30 5 active_monitor
       [{| refresh_ok := true; scanned := Returned [bet_a; bet_b];
           sleep_refused := false; interrupted := false |};
        {| refresh_ok := true; scanned := Returned [bet_b; bet_a];
           sleep_refused := false; interrupted := true |}] new_store eq_refl eq_refl reach_init)
    as (st' & Hs & Hh & _).
  exists st'. split; [exact Hs|]. rewrite Hh. vm_compute. reflexivity.
Defined.

Lemma try_body_counters (ci : Z) (l : Loop) (it : Iteration) :
  check_count (fst (fst (try_body ci l it))) = check_count l
  /\ (consecutive_errors (fst (fst (try_body ci l it))) = consecutive_errors l
      \/ consecutive_errors (fst (fst (try_body ci l it))) = 0%Z).
Proof.
  unfold try_body.
  destruct (store l) as [st|], (scanned it) as [|current];
    try (branches; cbn [fst snd check_count consecutive_errors]; auto; fail).
  destruct (check_for_new_bets current st) as [new_bets st'].
  destruct ((check_count l mod 10 =? 0)%Z && negb (refresh_ok it)),
    (ci =? 0)%Z, (3600 / ci =? 0)%Z, (check_count l mod (3600 / ci) =? 0)%Z;
    cbn [fst snd check_count consecutive_errors]; auto.
Qed.

(** One turn of the loop: the check count goes up by one; if the loop
    goes on, the error counter is zero or below the budget. *)
Lemma iteration_counters (ci me : Z) (l : Loop) (it : Iteration) :
  check_count (fst (fst (iteration ci me l it))) = (check_count l + 1)%Z
  /\ ((0 <= consecutive_errors l)%Z ->
      (0 <= consecutive_errors (fst (fst (iteration ci me l it)))
       <= consecutive_errors l + 1)%Z)
  /\ (snd (iteration ci me l it) = None ->
      consecutive_errors (fst (fst (iteration ci me l it))) = 0%Z
      \/ (consecutive_errors (fst (fst (iteration ci me l it))) < me)%Z).
Proof.
  destruct (try_body_counters ci (counted l) it) as [Hc He].
  pose proof (try_body_completed ci (counted l) it) as Hz.
  unfold iteration. unfold counted in Hc, He, Hz.
  destruct (try_body ci _ it) as [[l1 acts] completed].
  cbn [fst snd check_count consecutive_errors] in *.
  destruct completed; cbn [negb andb].
  - specialize (Hz eq_refl).
    branches; cbn [check_count consecutive_errors]; rewrite ?Hz;
      (split; [exact Hc|]); (split; [lia|]); auto.
  - cbn [consecutive_errors].
    destruct (Z.geb_spec (consecutive_errors l1 + 1) me) as [Hge|Hlt];
      cbn [fst snd check_count consecutive_errors]; branches;
      cbn [check_count consecutive_errors];
      (split; [exact Hc|]); (split; [lia|]);
      ((intros Hx; discriminate Hx) || (intros _; lia)).
Qed.

Lemma iterate_counters (ci me : Z) (world : list Iteration) :
  forall l,
    (0 <= consecutive_errors l)%Z ->
    (consecutive_errors l = 0 \/ consecutive_errors l < me)%Z ->
    snd (iterate ci me l world) = StillRunning ->
    check_count (fst (fst (iterate ci me l world)))
    = (check_count l + Z.of_nat (length world))%Z
    /\ (0 <= consecutive_errors (fst (fst (iterate ci me l world)))
        <= consecutive_errors l + Z.of_nat (length world))%Z
    /\ (consecutive_errors (fst (fst (iterate ci me l world))) = 0
        \/ consecutive_errors (fst (fst (iterate ci me l world))) < me)%Z.
Proof.
  induction world as [|it world IH]; intros l H0 Hb; cbn [iterate length].
  - intros _. cbn [fst]. repeat split; lia.
  - destruct (iteration_counters ci me l it) as (Hc & Hr & Hn).
    pose proof (iteration_ends ci me l it) as Hend.
    destruct (iteration ci me l it) as [[l1 acts] [e|]]; cbn [fst snd] in *.
    + intros ->. congruence.
    + specialize (IH l1 (proj1 (Hr H0)) (Hn eq_refl)).
      destruct (iterate ci me l1 world) as [[l2 acts2] e2]. cbn [fst snd] in *.
      intros He. destruct (IH He) as (Hc2 & Hr2 & Hb2). specialize (Hr H0).
      repeat split; lia.
Qed.

(** X14.  As long as the loop is running, its check count is the number
    of iterations made, and the consecutive-error counter is between zero
    and that number and is either zero or below [max_errors]. *)
Theorem X14_loop_counters (ci me : Z) (m : Monitor) (world : list Iteration) :
  snd (iterate ci me (loop_start m) world) = StillRunning ->
  check_count (fst (fst (iterate ci me (loop_start m) world)))
  = Z.of_nat (length world)
  /\ (0 <= consecutive_errors (fst (fst (iterate ci me (loop_start m) world)))
      <= Z.of_nat (length world))%Z
  /\ (consecutive_errors (fst (fst (iterate ci me (loop_start m) world))) = 0
      \/ consecutive_errors (fst (fst (iterate ci me (loop_start m) world))) < me)%Z.
Proof.
  intros H.
  destruct (iterate_counters ci me world (loop_start m)) as (Hc & Hr & Hb);
    cbn [loop_start consecutive_errors check_count] in *; auto; lia.
Qed.

Lemma X14_witness :
  check_count (fst (fst (iterate 30 5 (loop_start active_monitor)
                           (repeat quiet_scan 9 ++ [refresh_fails; quiet_scan]))))
  = 11%Z.
Proof.
  apply (X14_loop_counters 30 5 active_monitor
           (repeat quiet_scan 9 ++ [refresh_fails; quiet_scan])).
  vm_compute. reflexivity.
Defined.

(** X15.  A negative check interval ends the run in its first iteration:
    the sleep that closes the iteration raises, so with an error budget of
    at least two the loop always leaves through the crash handler, sends
    the crash notification, and never gets to a second iteration. *)
Theorem X15_negative_interval (ci me : Z) (m : Monitor) (it : Iteration)
    (rest : list Iteration) :
  (ci < 0)%Z -> (2 <= me)%Z ->
  iterate ci me (loop_start m) (it :: rest) = iterate ci me (loop_start m) [it]
  /\ snd (iterate ci me (loop_start m) (it :: rest)) = EndedByCrash
  /\ last (snd (fst (iterate ci me (loop_start m) (it :: rest))))
     = Some (SendStatus MonitorCrashed)
  /\ List.filter is_sleep (snd (fst (iterate ci me (loop_start m) (it :: rest))))
     = List.filter is_sleep (snd (fst (try_body ci (counted (loop_start m)) it))).
Proof.
  intros Hci Hme. cbn [iterate].
  destruct (try_body_counters ci (counted (loop_start m)) it) as [_ He].
  unfold iteration. unfold counted in *.
  cbn [loop_start store consecutive_errors check_count] in *.
  destruct (try_body ci _ it) as [[l1 acts] completed].
  cbn [fst snd consecutive_errors] in *.
  assert (sleep_raises ci = true) as Hsleep.
  { unfold sleep_raises. apply orb_true_intro. left. apply Z.ltb_lt. exact Hci. }
  rewrite Hsleep. cbn [orb].
  destruct completed; cbn [negb andb fst snd].
  - repeat split; rewrite ?last_snoc, ?List.filter_app, ?app_nil_r; reflexivity.
  - cbn [consecutive_errors store].
    destruct (Z.geb_spec (consecutive_errors l1 + 1) me) as [Hge|_]; [lia|].
    destruct (store l1); cbn [fst snd]; repeat split;
      rewrite ?last_snoc, ?List.filter_app; cbn [List.filter is_sleep];
      rewrite ?app_nil_r; reflexivity.
Qed.

Lemma X15_witness :
  snd (iterate (-5) 5 (loop_start active_monitor)
         [quiet_scan; quiet_scan; quiet_scan]) = EndedByCrash.
Proof.
  apply (X15_negative_interval (-5) 5 active_monitor quiet_scan
           [quiet_scan; quiet_scan]); lia.
Defined.

(** X16.  The hourly division is the only thing that can make an
    iteration fail once refresh and scan have succeeded, and it does so
    exactly for a check interval of zero or above 3600; negative intervals
    pass it. *)
Theorem X16_when_the_division_raises (ci : Z) (l : Loop) (it : Iteration) :
  raises_early l it = false ->
  (raises ci l it = true <-> ci = 0%Z \/ (3600 < ci)%Z).
Proof.
  intros He. rewrite raises_cases, He, orb_false_l. unfold division_raises.
  rewrite orb_true_iff, !Z.eqb_eq. split.
  - intros [H|H]; [auto|]. destruct (Z.eq_dec ci 0%Z) as [|Hne]; [auto|]. right.
    pose proof (Z.div_mod 3600 ci Hne) as Hd. rewrite H in Hd.
    destruct (Z_lt_le_dec ci 0%Z) as [Hneg|Hpos].
    + pose proof (Z.mod_neg_bound 3600 ci Hneg). lia.
    + pose proof (Z.mod_pos_bound 3600 ci ltac:(lia)). lia.
  - intros [->|H]; [auto|]. right. apply Z.div_small. lia.
Qed.

Lemma X16_witness :
  raises 0 (loop_start active_monitor) quiet_scan = true
  /\ raises (-30) (loop_start active_monitor) quiet_scan = false.
Proof.
  split.
  - apply (X16_when_the_division_raises 0 (loop_start active_monitor) quiet_scan);
      [reflexivity|auto].
  - destruct (raises (-30) (loop_start active_monitor) quiet_scan) eqn:H;
      [|reflexivity].
    apply (X16_when_the_division_raises (-30) (loop_start active_monitor)
             quiet_scan eq_refl) in H. lia.
Defined.

(** X17.  Whenever the monitoring loop is left, for whatever reason, the
    [finally] clause has run: monitoring is inactive, the side effects end
    with the clean-up of the monitor as it is then (history saved, browser
    closed), and a further call of the loop does nothing. *)
Theorem X17_loop_always_cleans_up (ci me : Z) (m : Monitor)
    (world : list Iteration) :
  monitoring_active m = true ->
  snd (run_monitoring_loop ci me m world) <> StillRunning ->
  monitoring_active (fst (fst (run_monitoring_loop ci me m world))) = false
  /\ (exists acts,
        snd (fst (run_monitoring_loop ci me m world))
        = acts ++ cleanup (fst (fst (run_monitoring_loop ci me m world))))
  /\ (forall ci' me' world',
        run_monitoring_loop ci' me' (fst (fst (run_monitoring_loop ci me m world)))
          world'
        = (fst (fst (run_monitoring_loop ci me m world)), [], NotStarted)).
Proof.
  intros Hact. unfold run_monitoring_loop. rewrite Hact. cbn [negb].
  destruct (iterate ci me _ world) as [[l acts] e].
  destruct e; cbn [fst snd monitoring_active]; intros He; try congruence;
    (split; [reflexivity|]); (split; [eexists; reflexivity|]);
    intros ci' me' world'; reflexivity.
Qed.

Lemma X17_witness :
  monitoring_active
    (fst (fst (run_monitoring_loop 30 5 active_monitor
                 [{| refresh_ok := true; scanned := Returned [bet_a];
                     sleep_refused := false; interrupted := true |}]))) = false.
Proof.
  apply (X17_loop_always_cleans_up 30 5 active_monitor
           [{| refresh_ok := true; scanned := Returned [bet_a];
               sleep_refused := false; interrupted := true |}] eq_refl).
  vm_compute. discriminate.
Defined.

(** X18.  An interrupt during the sleep of an iteration ends the loop in
    that iteration: no later iteration runs, and when the sleep is entered
    (its length is one that [time.sleep] takes), then, unless the
    iteration had already stopped the loop on the error budget, the loop
    leaves through the interrupt handler and the last thing the iteration
    does is to send the stopped-by-user notification. *)
Theorem X18_interrupt_ends_the_loop (ci me : Z) (l : Loop) (it : Iteration)
    (rest : list Iteration) :
  (0 <= ci)%Z -> interrupted it = true ->
  iterate ci me l (it :: rest) = iterate ci me l [it]
  /\ (sleep_raises ci || sleep_refused it = false ->
      (snd (iterate ci me l (it :: rest)) = EndedByUser
       /\ last (snd (fst (iterate ci me l (it :: rest))))
          = Some (SendStatus StoppedByUser))
      \/ (snd (iterate ci me l (it :: rest)) = EndedOnErrors
          /\ raises ci l it = true
          /\ last (snd (fst (iterate ci me l (it :: rest))))
             = Some (SendStatus StoppedTooManyErrors))).
Proof.
  intros Hci Hint. cbn [iterate]. unfold raises, iteration. unfold counted.
  destruct (try_body ci _ it) as [[l1 acts] completed]. cbn [fst snd].
  rewrite Hint.
  destruct (sleep_raises ci || sleep_refused it);
    destruct completed; cbn [negb andb fst snd];
    try (destruct (_ >=? me)%Z; cbn [fst snd]);
    (split; [reflexivity|]); intros Hsleep; try discriminate Hsleep.
  - left. split; [reflexivity|].
    change [Sleep ci; SendStatus StoppedByUser]
      with ([Sleep ci] ++ [SendStatus StoppedByUser]).
    rewrite app_assoc. apply last_snoc.
  - right. repeat split. apply last_snoc.
  - left. split; [reflexivity|].
    change [Sleep ci; SendStatus StoppedByUser]
      with ([Sleep ci] ++ [SendStatus StoppedByUser]).
    rewrite app_assoc. apply last_snoc.
Qed.

Lemma X18_witness :
  snd (iterate 30 5 (loop_start active_monitor)
         [{| refresh_ok := true; scanned := Returned [bet_a];
             sleep_refused := false; interrupted := true |};
          quiet_scan]) = EndedByUser.
Proof.
  destruct (X18_interrupt_ends_the_loop 30 5 (loop_start active_monitor)
              {| refresh_ok := true; scanned := Returned [bet_a];
                 sleep_refused := false; interrupted := true |}
              [quiet_scan] ltac:(lia) eq_refl)
    as [_ H].
  destruct (H eq_refl) as [[He _]|[He _]]; [exact He|].
  vm_compute in He. discriminate He.
Defined.








(** ** Configuration and [main] *)

Lemma filter_empty_iff (env : gmap str str) (vars : list str) :
  List.filter (fun var => is_empty (getenv env var)) vars = [] <->
  Forall (fun var => getenv env var <> []) vars.
Proof.
  induction vars as [|v vars IH]; cbn [List.filter].
  - split; auto.
  - destruct (getenv env v) eqn:Hv; cbn [is_empty].
    + split; [discriminate|]. intros H. apply Forall_cons in H as [H _]. congruence.
    + rewrite IH. split; [intros H; apply Forall_cons; split; [rewrite Hv; discriminate|exact H]|].
      intros H. now apply Forall_cons in H as [_ H].
Qed.

Lemma is_empty_false (s : str) : s <> [] -> is_empty s = false.
Proof. destruct s; [congruence|reflexivity]. Qed.

Section ConfigurationFacts.
Variable int : str -> option Z.
Variable env : gmap str str.

(** [load_configuration] spelled out. *)
Lemma load_configuration_cases :
  (Forall (fun var => getenv env var <> []) required_vars
   /\ exists p ci,
        int (getenv env (py "PROXY_PORT")) = Some p
        /\ (1 <= p <= 65535)%Z
        /\ int (getenv_or env (py "CHECK_INTERVAL") (py "30")) = Some ci
        /\ load_configuration int env
           = Goes {| proxy_settings :=
                       {| host := getenv env (py "PROXY_HOST"); port := p;
                          username := getenv env (py "PROXY_USERNAME");
                          password := getenv env (py "PROXY_PASSWORD");
                          expected_ip := getenv env (py "EXPECTED_PROXY_IP");
                          timeout := 10; verify_ssl := false |};
                     login_settings :=
                       {| cred_username := getenv env (py "BWIN_USERNAME");
                          cred_password := getenv env (py "BWIN_PASSWORD") |};
                     telegram_settings :=
                       {| bot_token := getenv env (py "TELEGRAM_BOT_TOKEN");
                          chat_id := getenv env (py "TELEGRAM_CHAT_ID") |};
                     check_interval_setting := ci;
                     headless_setting :=
                       bool_decide
                         (lower (getenv_or env (py "HEADLESS_MODE") (py "false"))
                          = py "true") |})
  \/ (load_configuration int env = Exit 1
      /\ (Exists (fun var => getenv env var = []) required_vars
          \/ int (getenv env (py "PROXY_PORT")) = None
          \/ (exists p, int (getenv env (py "PROXY_PORT")) = Some p
                        /\ ~ (1 <= p <= 65535)%Z)
          \/ int (getenv_or env (py "CHECK_INTERVAL") (py "30")) = None)).
Proof.
  unfold load_configuration.
  destruct (List.filter _ required_vars) as [|v vs] eqn:Hf.
  - apply filter_empty_iff in Hf.
    assert (forall var, In var required_vars -> is_empty (getenv env var) = false)
      as Hin.
    { intros var Hv. apply is_empty_false.
      rewrite Forall_forall in Hf. apply Hf, list_elem_of_In, Hv. }
    destruct (int (getenv env (py "PROXY_PORT"))) as [p|] eqn:Hp; [|right; auto].
    unfold make_ProxyConfig, make_LoginCredentials, make_TelegramConfig.
    rewrite !Hin by (cbn [In required_vars]; auto 12). cbn [orb].
    destruct (Z.leb_spec 1 p); [destruct (Z.leb_spec p 65535)|]; cbn [andb].
    + destruct (int (getenv_or env (py "CHECK_INTERVAL") (py "30"))) as [ci|] eqn:Hc.
      * left. split; [exact Hf|]. exists p, ci. repeat split; auto.
      * right. auto.
    + right. split; [reflexivity|]. right. right. left. exists p. split; [reflexivity|lia].
    + right. split; [reflexivity|]. right. right. left. exists p. split; [reflexivity|lia].
  - right. split; [reflexivity|]. left.
    assert (In v (List.filter (fun var => is_empty (getenv env var)) required_vars))
      as Hv by (rewrite Hf; left; reflexivity).
    apply filter_In in Hv as [Hv He]. apply List.Exists_exists. exists v.
    split; [exact Hv|]. destruct (getenv env v); [reflexivity|discriminate].
Qed.

End ConfigurationFacts.

(** X21.  The exit code of the process.  It is 1, with no side effect of
    the monitor at all, when the configuration is rejected; it is 1 when
    [initialize] returns [False]; and once the monitoring loop was entered
    it is 0 however the loop was left, be it by the user, by the exhausted
    error budget or through the crash handler. *)
Theorem X21_exit_codes (int : str -> option Z) (env : gmap str str)
    (w : Startup) (world : list Iteration) :
  (forall code,
     load_configuration int env = Exit code ->
     main int env w world = ([], Some 1%Z))
  /\ (forall cfg,
        load_configuration int env = Goes cfg ->
        fst (fst (initialize (proxy_settings cfg) w)) = false ->
        main int env w world = (snd (initialize (proxy_settings cfg) w), Some 1%Z))
  /\ (forall cfg,
        load_configuration int env = Goes cfg ->
        fst (fst (initialize (proxy_settings cfg) w)) = true ->
        snd (run_monitoring_loop (check_interval_setting cfg) 5
               (snd (fst (initialize (proxy_settings cfg) w))) world)
        <> StillRunning ->
        snd (main int env w world) = Some 0%Z)
  /\ (snd (main int env w world) = Some 1%Z <->
      (exists code, load_configuration int env = Exit code)
      \/ (exists cfg, load_configuration int env = Goes cfg
                      /\ fst (fst (initialize (proxy_settings cfg) w)) = false)).
Proof.
  pose proof (load_configuration_cases int env) as Hcases. unfold main.
  destruct (load_configuration int env) as [code|cfg].
  - assert (code = 1%Z) as ->.
    { destruct Hcases as [(_ & p & ci & _ & _ & _ & H)|[H _]]; congruence. }
    split; [reflexivity|]. split; [intros cfg [=]|]. split; [intros cfg [=]|].
    split; [intros _; left; eauto|reflexivity].
  - clear Hcases.
    destruct (initialize (proxy_settings cfg) w) as [[ok m] started] eqn:Hi.
    destruct (run_monitoring_loop (check_interval_setting cfg) 5 m world)
      as [[m' acts] e] eqn:Hr.
    split; [intros code [=]|]. split; [|split].
    + intros cfg' [= <-]. rewrite Hi. cbn [fst snd]. now intros ->.
    + intros cfg' [= <-]. rewrite Hi. cbn [fst snd]. intros ->. rewrite Hr.
      cbn [snd]. destruct e; congruence.
    + split.
      * destruct ok; cbn [snd]; [destruct e; discriminate|].
        intros _. right. exists cfg. rewrite Hi. auto.
      * intros [[code [=]]|(cfg' & [= <-] & Hf)].
        rewrite Hi in Hf. cbn [fst] in Hf. subst ok. reflexivity.
Qed.

(** The two theorems at work: with [CHECK_INTERVAL=-5] the configuration
    is accepted, the monitor starts, its first iteration ends in the crash
    handler, and the process exits with code 0. *)
Example negative_interval_end_to_end :
  (exists cfg, load_configuration int0 env0 = Goes cfg
               /\ check_interval_setting cfg = (-5)%Z
               /\ port (proxy_settings cfg) = 8080%Z)
  /\ snd (main int0 env0 startup_ok [quiet_scan; quiet_scan]) = Some 0%Z
  /\ List.filter is_status (fst (main int0 env0 startup_ok [quiet_scan; quiet_scan]))
     = [SendStatus StartingUp; SendStatus (InitializedOk (py "203.0.113.9"));
        SendStatus MonitorCrashed].
Proof.
  split; [eexists; split; [vm_compute; reflexivity|split; reflexivity]|].
  split; vm_compute; reflexivity.
Qed.

(** ** [navigate_to_bet_history] *)

Lemma any_indicator_quiet (pv : PageView) (indicators : list str) :
  (forall i, pv_find pv i <> Raised) ->
  any_indicator pv indicators <> Raised.
Proof.
  intros Hq. induction indicators as [|i r IH]; cbn [any_indicator]; [discriminate|].
  specialize (Hq i). destruct (pv_find pv i) as [|[|e es]];
    [congruence|exact IH|discriminate].
Qed.

(** X22.  The page check is met by the address alone: each of the three
    history addresses contains "bet", so when the browser lands on the
    address that was requested and no element query raises, the page is
    taken for the bet history whatever it shows, and
    [navigate_to_bet_history] returns [True] at the first address without
    trying the others. *)
Theorem X22_requested_address_verifies (get : str -> outcome PageView)
    (pv : PageView) (url : str) :
  In url history_urls ->
  pv_url pv = Returned url ->
  (forall i, pv_find pv i <> Raised) ->
  _verify_bet_page pv = true
  /\ (get (py "https://www.bwin.com/en/sports/my-bets/open") = Returned pv ->
      navigate_to_bet_history get
      = (true, [py "https://www.bwin.com/en/sports/my-bets/open"])).
Proof.
  intros Hin Hurl Hq.
  assert (_verify_bet_page pv = true) as Hv.
  { unfold _verify_bet_page.
    pose proof (any_indicator_quiet pv bet_indicators Hq) as Ha.
    destruct (any_indicator pv bet_indicators) as [|[]]; [congruence|reflexivity|].
    rewrite Hurl. cbn [In history_urls] in Hin.
    destruct Hin as [<-|[<-|[<-|[]]]]; vm_compute; reflexivity. }
  split; [exact Hv|]. intros Hg.
  unfold navigate_to_bet_history, history_urls. cbn [try_urls]. now rewrite Hg, Hv.
Qed.

Lemma X22_witness :
  navigate_to_bet_history
    (fun url => Returned (bare_page (py "https://www.bwin.com/en/mybets")))
  = (true, [py "https://www.bwin.com/en/sports/my-bets/open"]).
Proof.
  refine (proj2 (X22_requested_address_verifies
                   (fun url => Returned (bare_page (py "https://www.bwin.com/en/mybets")))
                   (bare_page (py "https://www.bwin.com/en/mybets"))
                   (py "https://www.bwin.com/en/mybets") _ _ _) eq_refl).
  - cbn [In history_urls]. auto.
  - reflexivity.
  - intros i. discriminate.
Defined.

(** What the loop over the addresses does, address by address. *)
Lemma try_urls_outcome (get : str -> outcome PageView) (urls : list str) :
  snd (try_urls get urls) `prefix_of` urls
  /\ Forall (fun u => exists pv, get u = Returned pv /\ _verify_bet_page pv = false)
            (removelast (snd (try_urls get urls)))
  /\ match last (snd (try_urls get urls)) with
     | None => urls = [] /\ fst (try_urls get urls) = false
     | Some u =>
         match get u with
         | Raised => fst (try_urls get urls) = false
         | Returned pv =>
             fst (try_urls get urls) = _verify_bet_page pv
             /\ (_verify_bet_page pv = false -> snd (try_urls get urls) = urls)
         end
     end.
Proof.
  induction urls as [|url urls (IHp & IHf & IHl)]; cbn [try_urls].
  - cbn. repeat split; auto.
  - destruct (get url) as [|pv] eqn:Hg.
    + cbn [fst snd removelast last]. rewrite Hg.
      repeat split; auto. now exists urls.
    + destruct (_verify_bet_page pv) eqn:Hv.
      * cbn [fst snd removelast last]. rewrite Hg, Hv.
        repeat split; auto; [now exists urls|discriminate].
      * destruct (try_urls get urls) as [ok visited]. cbn [fst snd] in *.
        split; [now apply prefix_cons|].
        destruct visited as [|v visited].
        -- cbn [removelast last] in *. rewrite Hg, Hv. destruct IHl as [-> ->].
           repeat split; auto.
        -- split.
           ++ change (removelast (url :: v :: visited))
                with (url :: removelast (v :: visited)).
              apply Forall_cons. split; [eauto|exact IHf].
           ++ change (last (url :: v :: visited)) with (last (v :: visited)).
              destruct (last (v :: visited)) as [u|].
              2:{ destruct IHl as [-> _]. apply prefix_nil_inv in IHp. discriminate. }
              destruct (get u) as [|pv']; [exact IHl|].
              destruct IHl as [Hok Hall]. split; [exact Hok|].
              intros Hf. now rewrite (Hall Hf).
Qed.

(** X23.  [navigate_to_bet_history] requests the history addresses in
    their order and stops at the first that either verifies (it returns
    [True]) or raises in [driver.get] (it returns [False] and the
    remaining addresses are not tried); it goes through all three only if
    none of the pages verifies. *)
Theorem X23_navigation_outcome (get : str -> outcome PageView) :
  snd (navigate_to_bet_history get) `prefix_of` history_urls
  /\ Forall (fun u => exists pv, get u = Returned pv /\ _verify_bet_page pv = false)
            (removelast (snd (navigate_to_bet_history get)))
  /\ (exists u, last (snd (navigate_to_bet_history get)) = Some u
                /\ match get u with
                   | Raised => fst (navigate_to_bet_history get) = false
                   | Returned pv =>
                       fst (navigate_to_bet_history get) = _verify_bet_page pv
                       /\ (_verify_bet_page pv = false ->
                           snd (navigate_to_bet_history get) = history_urls)
                   end).
Proof.
  unfold navigate_to_bet_history.
  destruct (try_urls_outcome get history_urls) as (Hp & Hf & Hl).
  split; [exact Hp|]. split; [exact Hf|].
  destruct (last (snd (try_urls get history_urls))) as [u|].
  - exists u. split; [reflexivity|exact Hl].
  - destruct Hl as [Hl _]. discriminate Hl.
Qed.

(** ** Scanning the same page again *)





(** X25.  The history file is never read back: a monitor that
    [initialize] has just started holds an empty store, so its first
    iteration notifies every record of the first scan (their identifiers
    being distinct), whatever an earlier run had saved. *)
Theorem X25_first_scan_notified_in_full (ci me : Z) (cfg : ProxyConfig)
    (w : Startup) (it : Iteration) (current : list BetInfo) :
  fst (fst (initialize cfg w)) = true ->
  scanned it = Returned current ->
  NoDup (ids current) ->
  bet_monitor (snd (fst (initialize cfg w))) = Some new_store
  /\ sent_bets (snd (fst (iteration ci me
                            (loop_start (snd (fst (initialize cfg w)))) it)))
     = current.
Proof.
  intros Hok Hsc Hnd.
  assert (bet_monitor (snd (fst (initialize cfg w))) = Some new_store) as Hm.
  { revert Hok. startup_cases cfg w; intros H; (discriminate || reflexivity). }
  split; [exact Hm|].
  unfold iteration, try_body, loop_start.
  cbn [store consecutive_errors check_count]. rewrite Hm, Hsc.
  change ((0 + 1) mod 10 =? 0)%Z with false. cbn [andb].
  pose proof (check_all_new current new_store Hnd) as Hall.
  destruct (check_for_new_bets current new_store) as [new_bets st'].
  cbn [fst] in Hall.
  assert (new_bets = current) as ->
    by (apply Hall; intros b _ Hin; inversion Hin).
  assert (sent_bets match current with
                    | [] => []
                    | _ :: _ => map SendBet current ++ [SaveHistory st']
                    end = current) as Hsent.
  { destruct current as [|b bs]; [reflexivity|].
    rewrite sent_bets_app, sent_bets_map. cbn [sent_bets]. apply app_nil_r. }
  set (told := match current with
               | [] => []
               | _ :: _ => map SendBet current ++ [SaveHistory st']
               end) in *.
  destruct (ci =? 0)%Z, (3600 / ci =? 0)%Z, ((0 + 1) mod (3600 / ci) =? 0)%Z;
    cbn [fst snd negb andb consecutive_errors app];
    branches; rewrite ?sent_bets_app, ?Hsent; cbn [sent_bets app];
    rewrite ?app_nil_r; reflexivity.
Qed.

Lemma X25_witness :
  sent_bets (snd (fst (iteration 30 5
                         (loop_start (snd (fst (initialize config0 startup_ok))))
                         {| refresh_ok := true; scanned := Returned [bet_a; bet_b];
                            sleep_refused := false; interrupted := false |})))
  = [bet_a; bet_b].
Proof.
  refine (proj2 (X25_first_scan_notified_in_full 30 5 config0 startup_ok
                   {| refresh_ok := true; scanned := Returned [bet_a; bet_b];
                      sleep_refused := false; interrupted := false |} [bet_a; bet_b] _ eq_refl _)).
  - vm_compute. reflexivity.
  - apply (bool_decide_unpack _). vm_compute. exact I.
Defined.
